(** * sourcegen/csharp/_Config.py: the C# generator's configuration object

    The module defines one frozen dataclass, [Config], with two dict-valued
    class attributes, four annotated fields and the factory classmethod
    [from_parsed].  Almost everything the module does is done by Python's
    object model (call binding, truthiness, [or], the methods that
    [@dataclass(frozen=True)] generates), so the embedding keeps an explicit
    object store: mutable objects live in a heap and are passed by reference,
    and every operation is a function from heaps to an outcome and a heap. *)

From stdpp Require Import base option list gmap strings.
From Stdlib Require Import ZArith.

Open Scope string_scope.
Open Scope list_scope.

(** ** Values and objects *)

(** A location is an index into the heap.  Objects are never freed. *)
Abbreviation loc := nat.

(** Immutable scalars are carried by value, everything else by reference:
    the values a parsed YAML document is made of, plus class instances. *)
Inductive value :=
| VNone
| VBool (b : bool)
| VInt (z : Z)
| VStr (s : string)
| VRef (l : loc).

Global Instance value_eq_dec : EqDecision value.
Proof. solve_decision. Defined.

Global Instance value_inhabited : Inhabited value := populate VNone.

(** Besides the objects the module makes and the containers of a parsed
    document, there is [OAmbiguous]: an instance of a class with empty
    [__slots__] (so without attributes of its own) whose [__bool__] raises
    [ValueError], as the truth test of a NumPy array of several elements
    does.  It compares by identity and hashes like any plain object. *)
Inductive obj :=
| ODict (d : gmap string value)
| OList (l : list value)
| OInstance (cls : loc) (attrs : gmap string value)
| OClass (fields : list string) (frozen : bool) (attrs : gmap string value)
| OAmbiguous.

Abbreviation heap := (list obj).

Inductive exn :=
| TypeError
| AttributeError
| FrozenInstanceError
| RecursionError
| ValueError
| DanglingReference.   (* a reference outside the heap: no Python counterpart *)

Global Instance exn_eq_dec : EqDecision exn.
Proof. solve_decision. Defined.

Inductive res (A : Type) :=
| Ok (a : A)
| Raise (e : exn).
Arguments Ok {A} a.
Arguments Raise {A} e.

(** ** The monad of heap-passing computations that may raise *)

Definition M (A : Type) : Type := heap → res A * heap.

Global Instance M_ret : MRet M := λ A a h, (Ok a, h).
Global Instance M_bind : MBind M := λ A B f m h,
  match m h with
  | (Ok a, h') => f a h'
  | (Raise e, h') => (Raise e, h')
  end.

Definition raise {A} (e : exn) : M A := λ h, (Raise e, h).
Definition lift {A} (r : res A) : M A := λ h, (r, h).

(** Reading the object behind a reference. *)
Definition read (l : loc) : M obj := λ h,
  match h !! l with
  | Some o => (Ok o, h)
  | None => (Raise DanglingReference, h)
  end.

(** Allocation: the new object gets the first unused location. *)
Definition alloc (o : obj) : M loc := λ h, (Ok (length h), h ++ [o]).

(** In-place update of the object at [l]. *)
Definition store (l : loc) (o : obj) : M unit := λ h, (Ok (), <[l:=o]> h).

(** ** Python's object model, as far as the module relies on it *)

(** [bool(v)]: [None], [False], [0], [""] and empty containers are falsy;
    an instance of a class with neither [__bool__] nor [__len__] is truthy;
    an object with a [__bool__] of its own answers, or raises, as that does. *)
Definition truthy (v : value) : M bool :=
  match v with
  | VNone => mret false
  | VBool b => mret b
  | VInt z => mret (negb (z =? 0)%Z)
  | VStr s => mret (negb (bool_decide (s = "")))
  | VRef l =>
      o ← read l;
      match o with
      | ODict d => mret (negb (bool_decide (d = ∅)))
      | OList l => mret (negb (bool_decide (l = [])))
      | OInstance _ _ => mret true
      | OClass _ _ _ => mret true
      | OAmbiguous => raise ValueError
      end
  end.

(** A dict display [{k1: v1, ..., kn: vn}]: entries are stored left to right,
    a repeated key keeps its last value. *)
Definition dict_display (entries : list (string * value)) : gmap string value :=
  foldl (λ d kv, <[kv.1 := kv.2]> d) ∅ entries.

Definition new_dict (entries : list (string * value)) : M value :=
  l ← alloc (ODict (dict_display entries)); mret (VRef l).

(** *** Calls *)

(** The shape of a [def] header: parameters that can be passed by position
    or by name (none of those in this module has a default), followed, after
    a bare [*], by keyword-only parameters with their defaults. *)
Record signature := Signature {
  sig_positional : list string;
  sig_kwonly : list (string * value)
}.

Definition sig_names (s : signature) : list string :=
  sig_positional s ++ (sig_kwonly s).*1.

(** Positional arguments fill the leading parameters; surplus ones are
    reported after the keywords have been looked at. *)
Fixpoint bind_positional (params : list string) (args : list value)
    (env : gmap string value) : gmap string value * list value :=
  match params, args with
  | p :: params', a :: args' => bind_positional params' args' (<[p:=a]> env)
  | _, _ => (env, args)
  end.

Fixpoint bind_keywords (names : list string) (kwargs : list (string * value))
    (env : gmap string value) : res (gmap string value) :=
  match kwargs with
  | [] => Ok env
  | (k, v) :: kwargs' =>
      if bool_decide (k ∈ names) then
        match env !! k with
        | Some _ => Raise TypeError            (* multiple values for argument *)
        | None => bind_keywords names kwargs' (<[k:=v]> env)
        end
      else Raise TypeError                     (* unexpected keyword argument *)
  end.

Definition fill_kwonly (kwonly : list (string * value))
    (env : gmap string value) : gmap string value :=
  foldl (λ e kd, match e !! kd.1 with Some _ => e | None => <[kd.1 := kd.2]> e end)
        env kwonly.

Definition bind_args (s : signature) (args : list value)
    (kwargs : list (string * value)) : res (gmap string value) :=
  let '(env, surplus) := bind_positional (sig_positional s) args ∅ in
  match bind_keywords (sig_names s) kwargs env with
  | Raise e => Raise e
  | Ok env =>
      match surplus with
      | _ :: _ => Raise TypeError              (* too many positional arguments *)
      | [] =>
          if forallb (λ p, bool_decide (is_Some (env !! p))) (sig_positional s)
          then Ok (fill_kwonly (sig_kwonly s) env)
          else Raise TypeError                 (* missing required argument *)
      end
  end.

(** *** Attributes *)

(** [o.name]: the instance's own attributes first, then its class's. *)
Definition getattr (h : heap) (o : value) (name : string) : res value :=
  match o with
  | VRef l =>
      match h !! l with
      | Some (OInstance c attrs) =>
          match attrs !! name with
          | Some v => Ok v
          | None =>
              match h !! c with
              | Some (OClass _ _ cattrs) =>
                  match cattrs !! name with
                  | Some v => Ok v
                  | None => Raise AttributeError
                  end
              | Some _ => Raise TypeError
              | None => Raise DanglingReference
              end
          end
      | Some (OClass _ _ cattrs) =>
          match cattrs !! name with
          | Some v => Ok v
          | None => Raise AttributeError
          end
      | Some _ => Raise AttributeError
      | None => Raise DanglingReference
      end
  | _ => Raise AttributeError
  end.

(** [object.__setattr__(self, name, v)] and [object.__delattr__(self, name)]. *)
Definition object_setattr (l : loc) (name : string) (v : value) : M unit :=
  o ← read l;
  match o with
  | OInstance c attrs => store l (OInstance c (<[name:=v]> attrs))
  | _ => raise AttributeError
  end.

Definition object_delattr (l : loc) (name : string) : M unit :=
  o ← read l;
  match o with
  | OInstance c attrs =>
      match attrs !! name with
      | Some _ => store l (OInstance c (delete name attrs))
      | None => raise AttributeError
      end
  | _ => raise AttributeError
  end.

(** [type(self).__setattr__] and [__delattr__] as [@dataclass(frozen=True)]
    generates them for the class [cls] with the given fields:
    [if type(self) is cls or name in fields: raise FrozenInstanceError],
    otherwise defer to [object]. *)
Definition frozen_setattr (cls : loc) (fields : list string)
    (self : loc) (name : string) (v : value) : M unit :=
  o ← read self;
  match o with
  | OInstance c _ =>
      if bool_decide (c = cls) || bool_decide (name ∈ fields)
      then raise FrozenInstanceError
      else object_setattr self name v
  | _ => raise TypeError
  end.

Definition frozen_delattr (cls : loc) (fields : list string)
    (self : loc) (name : string) : M unit :=
  o ← read self;
  match o with
  | OInstance c _ =>
      if bool_decide (c = cls) || bool_decide (name ∈ fields)
      then raise FrozenInstanceError
      else object_delattr self name
  | _ => raise TypeError
  end.

(** [self.name = v] and [del self.name] for an instance [self] of the class
    at [c]: the class's [__setattr__] or [__delattr__] is what
    [@dataclass] generated when the class is frozen, and [object]'s
    otherwise. *)
Definition instance_setattr (c self : loc) (name : string) (v : value) : M unit :=
  k ← read c;
  match k with
  | OClass fields true _ => frozen_setattr c fields self name v
  | OClass _ false _ => object_setattr self name v
  | _ => raise TypeError
  end.

Definition instance_delattr (c self : loc) (name : string) : M unit :=
  k ← read c;
  match k with
  | OClass fields true _ => frozen_delattr c fields self name
  | OClass _ false _ => object_delattr self name
  | _ => raise TypeError
  end.

(** The statements [o.name = v] and [del o.name].  On an instance they
    dispatch on its class; a dict, a list, a scalar and an object with empty
    [__slots__] take no attribute.  On a class object they go through
    [type.__setattr__] and [type.__delattr__], which rebind or remove the
    class attribute, the generated methods included; a class here has no
    such operation, so these statements are not given a meaning and the
    answer is [None]. *)
Definition setattr (o : value) (name : string) (v : value) (h : heap)
    : option (res unit * heap) :=
  match o with
  | VRef l =>
      match h !! l with
      | Some (OClass _ _ _) => None
      | Some (OInstance c _) => Some (instance_setattr c l name v h)
      | Some _ => Some (Raise AttributeError, h)
      | None => Some (Raise DanglingReference, h)
      end
  | _ => Some (Raise AttributeError, h)
  end.

Definition delattr (o : value) (name : string) (h : heap)
    : option (res unit * heap) :=
  match o with
  | VRef l =>
      match h !! l with
      | Some (OClass _ _ _) => None
      | Some (OInstance c _) => Some (instance_delattr c l name h)
      | Some _ => Some (Raise AttributeError, h)
      | None => Some (Raise DanglingReference, h)
      end
  | _ => Some (Raise AttributeError, h)
  end.

(** *** Instantiation *)

(** The [__init__] a dataclass gets: one parameter per field, in order,
    each stored with [object.__setattr__]. *)
Fixpoint init_fields (self : loc) (fields : list string)
    (env : gmap string value) : M unit :=
  match fields with
  | [] => mret ()
  | f :: fields' =>
      _ ← object_setattr self f (env !!! f);
      init_fields self fields' env
  end.

Definition dataclass_init (fields : list string) (self : loc)
    (args : list value) (kwargs : list (string * value)) : M unit :=
  env ← lift (bind_args (Signature fields []) args kwargs);
  init_fields self fields env.

(** Calling the class: [__new__] makes the bare instance, [__init__]
    binds the arguments and fills the fields. *)
Definition call_class (cls : loc) (args : list value)
    (kwargs : list (string * value)) : M value :=
  c ← read cls;
  match c with
  | OClass fields _ _ =>
      self ← alloc (OInstance cls ∅);
      _ ← dataclass_init fields self args kwargs;
      mret (VRef self)
  | _ => raise TypeError
  end.

(** *** Equality *)

Global Instance res_ret : MRet res := λ A a, Ok a.
Global Instance res_bind : MBind res := λ A B f r,
  match r with
  | Ok a => f a
  | Raise e => Raise e
  end.

(** Element-wise comparison of two sequences of the same length, stopping
    at the first pair that is not equal. *)
Fixpoint all_eq (eq : value → value → res bool)
    (ps : list (value * value)) : res bool :=
  match ps with
  | [] => Ok true
  | (a, b) :: ps' =>
      match eq a b with
      | Ok true => all_eq eq ps'
      | r => r
      end
  end.

(** Every entry of the left dict has an equal entry in the right one. *)
Fixpoint dict_entries_eq (eq : value → value → res bool)
    (es : list (string * value)) (d2 : gmap string value) : res bool :=
  match es with
  | [] => Ok true
  | (k, a) :: es' =>
      match d2 !! k with
      | None => Ok false
      | Some b =>
          match eq a b with
          | Ok true => dict_entries_eq eq es' d2
          | r => r
          end
      end
  end.

(** The tuple [(o.f1, ..., o.fn)] the generated [__eq__] builds. *)
Fixpoint field_tuple (h : heap) (o : value) (fields : list string)
    : res (list value) :=
  match fields with
  | [] => Ok []
  | f :: fields' =>
      v ← getattr h o f;
      vs ← field_tuple h o fields';
      mret (v :: vs)
  end.

(** [a == b].  [fuel] bounds the nesting depth (the interpreter's recursion
    limit); every comparison, also of scalars, needs some.  An object equals
    itself (none of these values is a NaN), and containers compare their
    elements with that identity shortcut.  A dict equals a dict of the same
    size in which each of its keys has an equal value (the entries are
    visited in the order of [map_to_list], not of insertion, which matters
    only for which of a mismatch and an error is met first).  A dataclass
    instance compares its field tuple with that of another instance of the
    very same class, and is otherwise equal only to itself. *)
Fixpoint py_eq (fuel : nat) (h : heap) (a b : value) : res bool :=
  match fuel with
  | 0 => Raise RecursionError
  | S n =>
      if bool_decide (a = b) then Ok true
      else
        match a, b with
        | VBool x, VInt z | VInt z, VBool x =>
            Ok (bool_decide (z = if x then 1 else 0)%Z)
        | VRef l1, VRef l2 =>
            match h !! l1, h !! l2 with
            | Some (ODict d1), Some (ODict d2) =>
                if bool_decide (size d1 = size d2)
                then dict_entries_eq (py_eq n h) (map_to_list d1) d2
                else Ok false
            | Some (OList x1), Some (OList x2) =>
                if bool_decide (length x1 = length x2)
                then all_eq (py_eq n h) (zip x1 x2)
                else Ok false
            | Some (OInstance c1 _), Some (OInstance c2 _) =>
                if bool_decide (c1 = c2) then
                  match h !! c1 with
                  | Some (OClass fields _ _) =>
                      t1 ← field_tuple h a fields;
                      t2 ← field_tuple h b fields;
                      all_eq (py_eq n h) (zip t1 t2)
                  | Some _ => Raise TypeError
                  | None => Raise DanglingReference
                  end
                else Ok false
            | Some _, Some _ => Ok false
            | _, _ => Raise DanglingReference
            end
        | _, _ => Ok false
        end
  end.

(** *** Hashing *)

(** Hashing the items of a tuple, left to right; the first item that cannot
    be hashed ends it. *)
Fixpoint hash_all (hash : value → res unit) (vs : list value) : res unit :=
  match vs with
  | [] => Ok ()
  | v :: vs' =>
      match hash v with
      | Ok _ => hash_all hash vs'
      | r => r
      end
  end.

(** [hash(v)], as far as it tells whether [v] can be hashed: the number
    itself depends on the interpreter's hash seed and is left out.  Scalars
    and classes hash; dicts and lists do not.  A dataclass with [eq] and
    [frozen] gets a [__hash__] that hashes the tuple of its fields; with
    [eq] alone its [__hash__] is set to [None]. *)
Fixpoint py_hash (fuel : nat) (h : heap) (v : value) : res unit :=
  match v with
  | VRef l =>
      match h !! l with
      | Some (ODict _) | Some (OList _) => Raise TypeError
      | Some (OClass _ _ _) | Some OAmbiguous => Ok ()
      | Some (OInstance c _) =>
          match h !! c with
          | Some (OClass fields true _) =>
              match fuel with
              | 0 => Raise RecursionError
              | S n => t ← field_tuple h v fields; hash_all (py_hash n h) t
              end
          | Some (OClass _ false _) => Raise TypeError
          | Some _ => Raise TypeError
          | None => Raise DanglingReference
          end
      | None => Raise DanglingReference
      end
  | _ => Ok ()
  end.

(** *** Item assignment *)

(** [d[k] = v]: defined on dicts, not on the other values here (a list
    takes no string index). *)
Definition dict_setitem (d : value) (k : string) (v : value) : M unit :=
  match d with
  | VRef l =>
      o ← read l;
      match o with
      | ODict m => store l (ODict (<[k:=v]> m))
      | _ => raise TypeError
      end
  | _ => raise TypeError
  end.

(** ** The module *)

(** Statements of a class body: [target = {...}] and the bare annotation
    [target: T]. *)
Inductive class_stmt :=
| Assign (target : string) (entries : list (string * value))
| AnnAssign (target : string) (annotation : string).

(** The class namespace and [__annotations__] built while the body runs. *)
Definition exec_class_stmt (ns : gmap string value * list string)
    (s : class_stmt) : M (gmap string value * list string) :=
  match s with
  | Assign x entries => v ← new_dict entries; mret (<[x:=v]> ns.1, ns.2)
  | AnnAssign x _ => mret (ns.1, ns.2 ++ [x])
  end.

Fixpoint exec_class_body (ns : gmap string value * list string)
    (body : list class_stmt) : M (gmap string value * list string) :=
  match body with
  | [] => mret ns
  | s :: body' => ns' ← exec_class_stmt ns s; exec_class_body ns' body'
  end.

(** [@dataclass(frozen=...)]: the fields are the annotated names, in order
    (no annotation here is a [ClassVar], and no annotated name has a value
    in the namespace, so no field has a default). *)
Definition dataclass (frozen : bool)
    (ns : gmap string value * list string) : M loc :=
  alloc (OClass ns.2 frozen ns.1).

Definition Config_body : list class_stmt :=
  [ Assign "ret_type_crosswalk"
      [ ("const char*", VStr "string");
        ("const double*", VStr "double[]");
        ("const int*", VStr "int[]");
        ("size_t", VStr "nuint");
        ("char*", VStr "byte*") ];
    Assign "prop_type_crosswalk"
      [ ("byte*", VStr "string");
        ("double*", VStr "double[]") ];
    AnnAssign "class_crosswalk" "Dict[str, str]";
    AnnAssign "class_accessors" "Dict[str, str]";
    AnnAssign "derived_handles" "Dict[str, str]";
    AnnAssign "wrapper_classes" "Dict[str, Dict[str, str]]" ].

(** [class Config: ...] under [@dataclass(frozen=True)]; the result is the
    location of the class object. *)
Definition Config : M loc :=
  exec_class_body (∅, []) Config_body ≫= dataclass true.

(** [def from_parsed(cls, *, class_crosswalk=None, class_accessors=None,
                     derived_handles=None, wrapper_classes=None)];
    [cls] is supplied by [@classmethod]. *)
Definition from_parsed_sig : signature :=
  Signature []
    [ ("class_crosswalk", VNone); ("class_accessors", VNone);
      ("derived_handles", VNone); ("wrapper_classes", VNone) ].

(** [v or {}] *)
Definition or_empty_dict (v : value) : M value :=
  truthy v ≫= λ b : bool, if b then mret v else new_dict [].

Definition from_parsed (cls : loc) (args : list value)
    (kwargs : list (string * value)) : M value :=
  env ← lift (bind_args from_parsed_sig args kwargs);
  a1 ← or_empty_dict (env !!! "class_crosswalk");
  a2 ← or_empty_dict (env !!! "class_accessors");
  a3 ← or_empty_dict (env !!! "derived_handles");
  a4 ← or_empty_dict (env !!! "wrapper_classes");
  call_class cls [a1; a2; a3; a4] [].

(** The two dicts bound in the class body. *)
Definition ret_type_crosswalk : gmap string value :=
  dict_display
    [ ("const char*", VStr "string");
      ("const double*", VStr "double[]");
      ("const int*", VStr "int[]");
      ("size_t", VStr "nuint");
      ("char*", VStr "byte*") ].

Definition prop_type_crosswalk : gmap string value :=
  dict_display
    [ ("byte*", VStr "string");
      ("double*", VStr "double[]") ].

Definition Config_fields : list string :=
  [ "class_crosswalk"; "class_accessors"; "derived_handles"; "wrapper_classes" ].

(** ** Vocabulary for the statements *)

(** The value bound to a keyword parameter of [from_parsed] by a call that
    passes [kwargs]: the argument of that name, or the default [None]. *)
Definition kwarg (kwargs : list (string * value)) (name : string) : value :=
  default VNone ((list_to_map kwargs : gmap string value) !! name).

(** The truth value of [v], read off [truthy] (which leaves the heap alone). *)
Definition truth (h : heap) (v : value) : res bool := (truthy v h).1.

(** A value whose truth test returns in [h]: a scalar, or a reference to an
    object of [h] other than one whose [__bool__] raises. *)
Definition value_ok (h : heap) (v : value) : Prop :=
  ∃ b, truth h v = Ok b.

(** The dict a value refers to, if it refers to one. *)
Definition deref_dict (h : heap) (v : value) : option (gmap string value) :=
  match v with
  | VRef l => match h !! l with Some (ODict d) => Some d | _ => None end
  | _ => None
  end.

(** The class attributes as the class body leaves them. *)
Definition Config_attrs (lr lp : loc) : gmap string value :=
  <["prop_type_crosswalk" := VRef lp]> (<["ret_type_crosswalk" := VRef lr]> ∅).

(** [cls] is the class object that executing the module has created, and
    the two dicts of its body are as the body made them. *)
Definition class_defined (h : heap) (cls : loc) : Prop :=
  ∃ lr lp,
    h !! cls = Some (OClass Config_fields true (Config_attrs lr lp)) ∧
    h !! lr = Some (ODict ret_type_crosswalk) ∧
    h !! lp = Some (ODict prop_type_crosswalk).

(** The attributes of an instance whose four fields hold [a1] ... [a4]. *)
Definition instance_attrs (a1 a2 a3 a4 : value) : gmap string value :=
  <["wrapper_classes" := a4]>
    (<["derived_handles" := a3]>
       (<["class_accessors" := a2]>
          (<["class_crosswalk" := a1]> ∅))).

(** How [v or {}], evaluated in [h], relates its result [a] to its operand:
    a truthy operand is passed on as it is; a falsy one is replaced by a
    dict that did not exist in [h] and is empty in the later heap [h']. *)
Definition chosen (h h' : heap) (v a : value) : Prop :=
  (truth h v = Ok true ∧ a = v) ∨
  (truth h v = Ok false ∧
   ∃ l, a = VRef l ∧ (length h ≤ l)%nat ∧ h' !! l = Some (ODict ∅)).

(** Two arguments that [from_parsed] cannot tell apart: both falsy, or both
    truthy and equal. *)
Definition alike (n : nat) (h : heap) (v w : value) : Prop :=
  (truth h v = Ok false ∧ truth h w = Ok false) ∨
  (truth h v = Ok true ∧ truth h w = Ok true ∧ py_eq n h v w = Ok true).

(** [inst] is an instance that a call of the factory, or of the class
    itself, has returned, taking the heap from [h] to [h']. *)
Definition constructs (cls : loc) (h : heap) (inst : value) (h' : heap) : Prop :=
  ∃ args kwargs,
    from_parsed cls args kwargs h = (Ok inst, h') ∨
    call_class cls args kwargs h = (Ok inst, h').

(** One operation of the module on the heap, whatever its outcome: a call
    of the factory or of the class with any arguments, or an assignment to,
    or a deletion of, an attribute of an instance of the class.  Statements
    that rebind the class's own attributes, and item assignments into dicts,
    are not steps. *)
Inductive step (cls : loc) : heap → heap → Prop :=
| step_from_parsed h args kwargs :
    step cls h (from_parsed cls args kwargs h).2
| step_call h args kwargs :
    step cls h (call_class cls args kwargs h).2
| step_setattr h l m name v r h' :
    h !! l = Some (OInstance cls m) →
    setattr (VRef l) name v h = Some (r, h') →
    step cls h h'
| step_delattr h l m name r h' :
    h !! l = Some (OInstance cls m) →
    delattr (VRef l) name h = Some (r, h') →
    step cls h h'.

(** The body of [from_parsed], as a function of the four bound values. *)
Definition build (cls : loc) (v1 v2 v3 v4 : value) : M value :=
  a1 ← or_empty_dict v1;
  a2 ← or_empty_dict v2;
  a3 ← or_empty_dict v3;
  a4 ← or_empty_dict v4;
  call_class cls [a1; a2; a3; a4] [].

(** Two operands on which [or] takes the same branch and, when it keeps the
    operand, yields the same value. *)
Definition same_choice (h : heap) (v w : value) : Prop :=
  v = w ∨ (truth h v = Ok false ∧ truth h w = Ok false).

(** [v] is falsy in [h]: [v or {}] gives the new dict. *)
Definition falsy (h : heap) (v : value) : bool :=
  match truth h v with
  | Ok false => true
  | _ => false
  end.

(** An operation is monotone when it only ever adds objects to the heap. *)
Definition monotone {A} (m : M A) : Prop := ∀ h, h `prefix_of` (m h).2.

(** A heap to run examples in: the module has been executed (the class
    object is at location 2), then a YAML document has been parsed into
    the objects at locations 3 to 9. *)
Definition demo_heap : heap :=
  (Config []).2 ++
  [ ODict {[ "Sol" := VStr "Solution" ]};          (* 3 *)
    ODict {[ "Solution" := VStr "soln" ]};         (* 4 *)
    ODict {[ "Kinetics" := VStr "Solution" ]};     (* 5 *)
    ODict {[ "getter" := VStr "string" ]};         (* 6 *)
    ODict {[ "Solution" := VRef 6 ]};              (* 7 *)
    ODict ∅;                                       (* 8 *)
    OList [VInt 1; VStr "x"] ].                    (* 9 *)


(** The same heap with one more object, at location 10: one whose truth
    test raises. *)
Definition ambiguous_heap : heap := demo_heap ++ [OAmbiguous].

(** ** The monad and the store *)

Lemma mbind_unfold {A B} (m : M A) (f : A → M B) h :
  (m ≫= f) h =
  match m h with
  | (Ok a, h') => f a h'
  | (Raise e, h') => (Raise e, h')
  end.
Proof. reflexivity. Qed.

Lemma mbind_ok {A B} (m : M A) (f : A → M B) h a h' :
  m h = (Ok a, h') → (m ≫= f) h = f a h'.
Proof. intros E. by rewrite mbind_unfold, E. Qed.


Lemma monotone_ret {A} (a : A) : monotone (mret a).
Proof. intros h. done. Qed.

Lemma monotone_raise {A} e : monotone (@raise A e).
Proof. intros h. done. Qed.

Lemma monotone_lift {A} (r : res A) : monotone (lift r).
Proof. intros h. done. Qed.

Lemma monotone_bind {A B} (m : M A) (f : A → M B) :
  monotone m → (∀ a, monotone (f a)) → monotone (m ≫= f).
Proof.
  intros Hm Hf h. rewrite mbind_unfold.
  specialize (Hm h). destruct (m h) as [[a|e] h1]; simpl in *; [|done].
  etrans; [exact Hm|apply Hf].
Qed.

Lemma monotone_read l : monotone (read l).
Proof. intros h. unfold read. by destruct (h !! l). Qed.

Lemma monotone_alloc o : monotone (alloc o).
Proof. intros h. by apply prefix_app_r. Qed.

Lemma read_ok h l o : h !! l = Some o → read l h = (Ok o, h).
Proof. unfold read. by intros ->. Qed.

Lemma lookup_fresh (h : heap) o : (h ++ [o]) !! length h = Some o.
Proof. by rewrite list_lookup_middle. Qed.

Lemma store_fresh (h : heap) o o' :
  store (length h) o' (h ++ [o]) = (Ok (), h ++ [o']).
Proof.
  unfold store. f_equal.
  rewrite insert_app_r_alt by lia. by rewrite Nat.sub_diag.
Qed.

Lemma truthy_heap v h : truthy v h = (truth h v, h).
Proof.
  unfold truth. destruct v as [| | | |l]; try done.
  simpl. rewrite mbind_unfold. unfold read.
  destruct (h !! l) as [[]|]; done.
Qed.

Lemma truth_ok h v : value_ok h v → ∃ b, truth h v = Ok b.
Proof. done. Qed.

Lemma truth_prefix h h' v b :
  h `prefix_of` h' → truth h v = Ok b → truth h' v = Ok b.
Proof.
  intros Hp. unfold truth. destruct v as [| | | |l]; try done.
  simpl. rewrite !mbind_unfold. unfold read.
  destruct (h !! l) as [o|] eqn:Ho; [|done].
  rewrite (prefix_lookup_Some _ _ _ _ Ho Hp).
  by destruct o.
Qed.

Lemma value_ok_prefix h h' v : h `prefix_of` h' → value_ok h v → value_ok h' v.
Proof. intros Hp [b Hb]. exists b. by eapply truth_prefix. Qed.

(** [v or {}] keeps a truthy [v] and otherwise makes a new empty dict. *)
Lemma or_empty_dict_truthy h v :
  truth h v = Ok true → or_empty_dict v h = (Ok v, h).
Proof.
  intros E. unfold or_empty_dict.
  by rewrite (mbind_ok _ _ _ true h) by (by rewrite truthy_heap, E).
Qed.

Lemma or_empty_dict_falsy h v :
  truth h v = Ok false →
  or_empty_dict v h = (Ok (VRef (length h)), h ++ [ODict ∅]).
Proof.
  intros E. unfold or_empty_dict.
  by rewrite (mbind_ok _ _ _ false h) by (by rewrite truthy_heap, E).
Qed.

Lemma monotone_or_empty_dict v : monotone (or_empty_dict v).
Proof.
  intros h. unfold or_empty_dict. rewrite mbind_unfold, truthy_heap.
  destruct (truth h v) as [[]|]; simpl; [done| |done].
  by apply prefix_app_r.
Qed.

(** Writing an attribute of the object allocated last. *)
Lemma object_setattr_fresh h c m f v :
  object_setattr (length h) f v (h ++ [OInstance c m])
  = (Ok (), h ++ [OInstance c (<[f:=v]> m)]).
Proof.
  unfold object_setattr.
  rewrite (mbind_ok _ _ _ _ _ (read_ok _ _ _ (lookup_fresh h _))).
  apply store_fresh.
Qed.

Lemma init_fields_fresh fields env h c m :
  init_fields (length h) fields env (h ++ [OInstance c m])
  = (Ok (), h ++ [OInstance c (foldl (λ m f, <[f := env !!! f]> m) m fields)]).
Proof.
  revert m. induction fields as [|f fields IH]; intros m; [done|].
  simpl. rewrite (mbind_ok _ _ _ _ _ (object_setattr_fresh _ _ _ _ _)).
  apply IH.
Qed.

(** Instantiation in closed form: a class whose arguments bind yields a new
    object holding one attribute per field; when they do not bind, the bare
    instance is left behind and [TypeError] propagates. *)
Lemma call_class_ok h cls fields fr attrs args kwargs env :
  h !! cls = Some (OClass fields fr attrs) →
  bind_args (Signature fields []) args kwargs = Ok env →
  call_class cls args kwargs h
  = (Ok (VRef (length h)),
     h ++ [OInstance cls (foldl (λ m f, <[f := env !!! f]> m) ∅ fields)]).
Proof.
  intros Hc Hb. unfold call_class.
  rewrite (mbind_ok _ _ _ _ _ (read_ok _ _ _ Hc)).
  rewrite (mbind_ok _ _ _ (length h) (h ++ [OInstance cls ∅])) by done.
  unfold dataclass_init. rewrite Hb.
  erewrite mbind_ok; [done|].
  rewrite (mbind_ok _ _ _ env (h ++ [OInstance cls ∅])) by done.
  apply init_fields_fresh.
Qed.

Lemma call_class_raise h cls fields fr attrs args kwargs e :
  h !! cls = Some (OClass fields fr attrs) →
  bind_args (Signature fields []) args kwargs = Raise e →
  call_class cls args kwargs h = (Raise e, h ++ [OInstance cls ∅]).
Proof.
  intros Hc Hb. unfold call_class.
  rewrite (mbind_ok _ _ _ _ _ (read_ok _ _ _ Hc)).
  rewrite (mbind_ok _ _ _ (length h) (h ++ [OInstance cls ∅])) by done.
  unfold dataclass_init. rewrite Hb. done.
Qed.

Lemma monotone_call_class cls args kwargs : monotone (call_class cls args kwargs).
Proof.
  intros h. unfold call_class. rewrite mbind_unfold. unfold read.
  destruct (h !! cls) as [o|] eqn:Hc; [|done].
  destruct o as [| | |fields fr attrs|]; try done.
  destruct (bind_args (Signature fields []) args kwargs) as [env|e] eqn:Hb.
  - fold (read cls). 
    pose proof (call_class_ok _ _ _ _ _ _ _ _ Hc Hb) as E.
    unfold call_class in E. rewrite mbind_unfold in E. unfold read in E.
    rewrite Hc in E. rewrite E. by apply prefix_app_r.
  - pose proof (call_class_raise _ _ _ _ _ _ _ _ Hc Hb) as E.
    unfold call_class in E. rewrite mbind_unfold in E. unfold read in E.
    rewrite Hc in E. rewrite E. by apply prefix_app_r.
Qed.

Lemma monotone_from_parsed cls args kwargs : monotone (from_parsed cls args kwargs).
Proof.
  unfold from_parsed.
  apply monotone_bind; [apply monotone_lift|intros env].
  repeat (apply monotone_bind; [apply monotone_or_empty_dict|intros ?]).
  apply monotone_call_class.
Qed.

(** ** Call binding *)

Lemma bind_keywords_raise names kwargs env e :
  bind_keywords names kwargs env = Raise e → e = TypeError.
Proof.
  revert env. induction kwargs as [|[k v] kwargs IH]; intros env; simpl; [done|].
  case_bool_decide; [|congruence].
  destruct (env !! k); [congruence|]. apply IH.
Qed.

(** Keywords bind exactly when each names a parameter that is still free
    and none is repeated; the environment then gains one entry per keyword. *)
Lemma bind_keywords_ok names kwargs env :
  NoDup kwargs.*1 →
  (∀ k, k ∈ kwargs.*1 → k ∈ names ∧ env !! k = None) →
  bind_keywords names kwargs env = Ok (list_to_map kwargs ∪ env).
Proof.
  revert env. induction kwargs as [|[k v] kwargs IH]; intros env Hnd Hk; simpl.
  - by rewrite (left_id_L ∅ (∪)).
  - apply NoDup_cons in Hnd as [Hk1 Hnd]. simpl in Hk.
    destruct (Hk k) as [Hin Hfree]; [by left|].
    rewrite bool_decide_true, Hfree by done.
    rewrite IH; [|done|].
    + f_equal. rewrite <-insert_union_l, <-insert_union_r; [done|].
      by apply not_elem_of_list_to_map_1.
    + intros k' Hk'. destruct (Hk k') as [? ?]; [by right|].
      split; [done|]. rewrite lookup_insert_ne; [done|]. by intros ->.
Qed.

Lemma bind_keywords_inv names kwargs env env' :
  bind_keywords names kwargs env = Ok env' →
  NoDup kwargs.*1 ∧
  (∀ k, k ∈ kwargs.*1 → k ∈ names ∧ env !! k = None) ∧
  size env' = length kwargs + size env.
Proof.
  revert env. induction kwargs as [|[k v] kwargs IH]; intros env; simpl.
  - intros [= <-]. split; [constructor|]. split; [by intros k ?%elem_of_nil|done].
  - case_bool_decide as Hin; [|done].
    destruct (env !! k) eqn:Hfree; [done|].
    intros E. apply IH in E as (Hnd & Hk & Hsz).
    split; [|split].
    + constructor; [|done]. intros Hk'. apply Hk in Hk' as [_ Hk'].
      by rewrite lookup_insert_eq in Hk'.
    + intros k' [->|Hk']%elem_of_cons; [done|].
      destruct (Hk k' Hk') as [? Hl]. split; [done|].
      rewrite lookup_insert_ne in Hl; [done|]. intros ->.
      by rewrite lookup_insert_eq in Hl.
    + rewrite Hsz, map_size_insert_None by done. lia.
Qed.

Lemma fill_kwonly_union kwonly env :
  fill_kwonly kwonly env = env ∪ list_to_map kwonly.
Proof.
  unfold fill_kwonly. revert env.
  induction kwonly as [|[k d] kwonly IH]; intros env; simpl.
  - by rewrite (right_id_L ∅ (∪)).
  - rewrite IH. destruct (env !! k) as [v|] eqn:E.
    + apply map_eq. intros i. rewrite !lookup_union.
      destruct (decide (i = k)) as [->|Hne].
      * rewrite E. by destruct (list_to_map kwonly !! k), (<[k:=d]> (list_to_map kwonly) !! k).
      * by rewrite lookup_insert_ne.
    + apply map_eq. intros i. rewrite !lookup_union.
      destruct (decide (i = k)) as [->|Hne].
      * rewrite !lookup_insert_eq, E. by destruct (list_to_map kwonly !! k).
      * by rewrite !lookup_insert_ne.
Qed.


Lemma bind_args_kwonly kwonly kwargs :
  NoDup kwargs.*1 →
  (∀ k, k ∈ kwargs.*1 → k ∈ kwonly.*1) →
  bind_args (Signature [] kwonly) [] kwargs
  = Ok (list_to_map kwargs ∪ ∅ ∪ list_to_map kwonly).
Proof.
  intros Hnd Hk. unfold bind_args, sig_names.
  cbn [sig_positional sig_kwonly bind_positional app forallb].
  rewrite bind_keywords_ok; [|done|].
  - by rewrite fill_kwonly_union.
  - intros k Hin. split; [by apply Hk|done].
Qed.

(** By keyword it takes any selection of its four parameters, in any
    order; the ones left out are bound to [None]. *)
Lemma from_parsed_bind_keywords kwargs :
  NoDup kwargs.*1 →
  (∀ k, k ∈ kwargs.*1 → k ∈ Config_fields) →
  ∃ env, bind_args from_parsed_sig [] kwargs = Ok env ∧
         ∀ name, name ∈ Config_fields → env !!! name = kwarg kwargs name.
Proof.
  intros Hnd Hk. eexists. split.
  - by apply bind_args_kwonly.
  - intros name Hname. unfold kwarg.
    rewrite lookup_total_alt, lookup_union, lookup_union, lookup_empty.
    unfold Config_fields in Hname.
    repeat (apply elem_of_cons in Hname as [->|Hname];
            [by destruct (list_to_map kwargs !! _)|]).
    by apply elem_of_nil in Hname.
Qed.

(** ** Instantiating [Config] *)

Lemma Config_init_bind a1 a2 a3 a4 :
  bind_args (Signature Config_fields []) [a1; a2; a3; a4] []
  = Ok (instance_attrs a1 a2 a3 a4).
Proof. reflexivity. Qed.

Lemma instance_attrs_fields a1 a2 a3 a4 :
  foldl (λ m f, <[f := instance_attrs a1 a2 a3 a4 !!! f]> m) ∅ Config_fields
  = instance_attrs a1 a2 a3 a4.
Proof. reflexivity. Qed.

Lemma call_Config h cls fr attrs a1 a2 a3 a4 :
  h !! cls = Some (OClass Config_fields fr attrs) →
  call_class cls [a1; a2; a3; a4] [] h
  = (Ok (VRef (length h)), h ++ [OInstance cls (instance_attrs a1 a2 a3 a4)]).
Proof.
  intros Hc.
  rewrite (call_class_ok _ _ _ _ _ _ _ _ Hc (Config_init_bind a1 a2 a3 a4)).
  by rewrite instance_attrs_fields.
Qed.

(** ** Executing the class statement *)

Lemma Config_spec h :
  Config h
  = (Ok (length h + 2),
     h ++ [ ODict ret_type_crosswalk; ODict prop_type_crosswalk;
            OClass Config_fields true (Config_attrs (length h) (length h + 1)) ]).
Proof.
  unfold Config, Config_body. cbn [exec_class_body].
  rewrite (mbind_ok _ _ h
             (Config_attrs (length h) (length h + 1), Config_fields)
             (h ++ [ODict ret_type_crosswalk; ODict prop_type_crosswalk])).
  - unfold dataclass, alloc. cbn [fst snd].
    rewrite length_app, <-app_assoc. reflexivity.
  - rewrite (mbind_ok _ _ h (<["ret_type_crosswalk" := VRef (length h)]> ∅, [])
               (h ++ [ODict ret_type_crosswalk])) by reflexivity.
    rewrite (mbind_ok _ _ _
               (Config_attrs (length h) (length h + 1), [])
               (h ++ [ODict ret_type_crosswalk; ODict prop_type_crosswalk])).
    + reflexivity.
    + cbn [exec_class_stmt]. unfold new_dict, alloc.
      rewrite !mbind_unfold. cbn [mret M_ret fst snd].
      rewrite length_app, <-app_assoc. reflexivity.
Qed.

Lemma Config_class_defined h : class_defined (Config h).2 (length h + 2).
Proof.
  rewrite Config_spec. cbn [snd].
  exists (length h), (length h + 1). split; [|split].
  - rewrite lookup_app_r by lia.
    by replace (length h + 2 - length h) with 2 by lia.
  - by rewrite lookup_app_r, Nat.sub_diag by lia.
  - rewrite lookup_app_r by lia.
    by replace (length h + 1 - length h) with 1 by lia.
Qed.

Lemma class_defined_prefix h h' cls :
  h `prefix_of` h' → class_defined h cls → class_defined h' cls.
Proof.
  intros Hp (lr & lp & Hc & Hr & Hq). exists lr, lp.
  split; [|split]; by eapply prefix_lookup_Some.
Qed.

(** ** What [from_parsed] returns *)

Lemma kwarg_ok h kwargs name :
  (∀ k v, (k, v) ∈ kwargs → value_ok h v) → value_ok h (kwarg kwargs name).
Proof.
  intros Hok. unfold kwarg.
  destruct (list_to_map kwargs !! name) as [v|] eqn:E; [|by exists false].
  apply elem_of_list_to_map_2 in E. by eapply Hok.
Qed.

Lemma kwarg_supplied kwargs name v :
  NoDup kwargs.*1 → (name, v) ∈ kwargs → kwarg kwargs name = v.
Proof.
  intros Hnd Hin. unfold kwarg.
  by rewrite (elem_of_list_to_map_1 _ _ _ Hnd Hin).
Qed.

Lemma kwarg_omitted kwargs name :
  name ∉ kwargs.*1 → kwarg kwargs name = VNone.
Proof.
  intros Hin. unfold kwarg.
  by rewrite (not_elem_of_list_to_map_1 _ _ Hin).
Qed.

Lemma chosen_prefix h h1 h2 v a :
  chosen h h1 v a → h1 `prefix_of` h2 → chosen h h2 v a.
Proof.
  intros [?|(Ht & l & -> & Hl & Hd)] Hp; [by left|right].
  split; [done|]. exists l. eauto using prefix_lookup_Some.
Qed.

Lemma or_empty_dict_spec h0 h v :
  h0 `prefix_of` h → value_ok h0 v →
  ∃ a h1, or_empty_dict v h = (Ok a, h1) ∧ h `prefix_of` h1 ∧ chosen h0 h1 v a.
Proof.
  intros Hp Hv. destruct (truth_ok _ _ Hv) as [b Hb].
  pose proof (truth_prefix _ _ _ _ Hp Hb) as Hb'. destruct b.
  - exists v, h. rewrite (or_empty_dict_truthy _ _ Hb').
    split; [done|]. split; [done|]. by left.
  - exists (VRef (length h)), (h ++ [ODict ∅]).
    rewrite (or_empty_dict_falsy _ _ Hb').
    split; [done|]. split; [by apply prefix_app_r|]. right.
    split; [done|]. exists (length h).
    split; [done|]. split; [by apply prefix_length|apply lookup_fresh].
Qed.

(** A call that passes any selection of the four parameters by keyword
    succeeds; the result is a new instance, allocated after the dicts that
    replace the falsy arguments, whose four fields are the outcomes of the
    four [or]s. *)
Lemma from_parsed_spec h cls fr attrs kwargs :
  h !! cls = Some (OClass Config_fields fr attrs) →
  NoDup kwargs.*1 →
  (∀ k, k ∈ kwargs.*1 → k ∈ Config_fields) →
  (∀ k v, (k, v) ∈ kwargs → value_ok h v) →
  ∃ a1 a2 a3 a4 h',
    from_parsed cls [] kwargs h
    = (Ok (VRef (length h')), h' ++ [OInstance cls (instance_attrs a1 a2 a3 a4)]) ∧
    h `prefix_of` h' ∧
    chosen h h' (kwarg kwargs "class_crosswalk") a1 ∧
    chosen h h' (kwarg kwargs "class_accessors") a2 ∧
    chosen h h' (kwarg kwargs "derived_handles") a3 ∧
    chosen h h' (kwarg kwargs "wrapper_classes") a4.
Proof.
  intros Hc Hnd Hk Hok.
  destruct (from_parsed_bind_keywords kwargs Hnd Hk) as (env & Hb & Henv).
  unfold from_parsed. rewrite Hb.
  rewrite (mbind_ok _ _ _ env h) by done.
  rewrite !Henv by (by apply (bool_decide_unpack _)).
  destruct (or_empty_dict_spec h h (kwarg kwargs "class_crosswalk"))
    as (a1 & h1 & E1 & P1 & C1); [done|by apply kwarg_ok|].
  rewrite (mbind_ok _ _ _ _ _ E1).
  destruct (or_empty_dict_spec h h1 (kwarg kwargs "class_accessors"))
    as (a2 & h2 & E2 & P2 & C2); [done|by apply kwarg_ok|].
  rewrite (mbind_ok _ _ _ _ _ E2).
  assert (h `prefix_of` h2) as Q2 by (by etrans).
  destruct (or_empty_dict_spec h h2 (kwarg kwargs "derived_handles"))
    as (a3 & h3 & E3 & P3 & C3); [done|by apply kwarg_ok|].
  rewrite (mbind_ok _ _ _ _ _ E3).
  assert (h `prefix_of` h3) as Q3 by (by etrans).
  destruct (or_empty_dict_spec h h3 (kwarg kwargs "wrapper_classes"))
    as (a4 & h4 & E4 & P4 & C4); [done|by apply kwarg_ok|].
  rewrite (mbind_ok _ _ _ _ _ E4).
  assert (h `prefix_of` h4) as Q4 by (by etrans).
  assert (h2 `prefix_of` h4) as R2 by (by etrans).
  assert (h1 `prefix_of` h4) as R1 by (by etrans).
  exists a1, a2, a3, a4, h4. split.
  - apply (call_Config _ _ fr attrs). by eapply prefix_lookup_Some.
  - split; [done|].
    split; [by apply (chosen_prefix _ h1)|].
    split; [by apply (chosen_prefix _ h2)|].
    split; [by apply (chosen_prefix _ h3)|].
    done.
Qed.

(** ** Attributes of an instance *)

Lemma getattr_prefix h h' o name v :
  h `prefix_of` h' → getattr h o name = Ok v → getattr h' o name = Ok v.
Proof.
  intros Hp. destruct o as [| | | |l]; try done. simpl.
  destruct (h !! l) as [ob|] eqn:Hl; [|done].
  rewrite (prefix_lookup_Some _ _ _ _ Hl Hp).
  destruct ob as [| |c attrs| |]; try done.
  destruct (attrs !! name); [done|].
  destruct (h !! c) as [k|] eqn:Hk; [|done].
  by rewrite (prefix_lookup_Some _ _ _ _ Hk Hp).
Qed.

Lemma getattr_own h l c attrs name v :
  h !! l = Some (OInstance c attrs) → attrs !! name = Some v →
  getattr h (VRef l) name = Ok v.
Proof. intros Hl Hn. simpl. by rewrite Hl, Hn. Qed.

Lemma getattr_inherited h l c attrs fields fr cattrs name v :
  h !! l = Some (OInstance c attrs) → attrs !! name = None →
  h !! c = Some (OClass fields fr cattrs) → cattrs !! name = Some v →
  getattr h (VRef l) name = Ok v.
Proof. intros Hl Hn Hc Hv. simpl. by rewrite Hl, Hn, Hc, Hv. Qed.

Lemma instance_attrs_lookup a1 a2 a3 a4 :
  instance_attrs a1 a2 a3 a4 !! "class_crosswalk" = Some a1 ∧
  instance_attrs a1 a2 a3 a4 !! "class_accessors" = Some a2 ∧
  instance_attrs a1 a2 a3 a4 !! "derived_handles" = Some a3 ∧
  instance_attrs a1 a2 a3 a4 !! "wrapper_classes" = Some a4.
Proof. repeat split. Qed.

Lemma instance_attrs_dom a1 a2 a3 a4 name :
  is_Some (instance_attrs a1 a2 a3 a4 !! name) ↔ name ∈ Config_fields.
Proof.
  unfold instance_attrs, Config_fields.
  rewrite !lookup_insert_is_Some, lookup_empty, is_Some_alt.
  rewrite !elem_of_cons, elem_of_nil. intuition congruence.
Qed.

Lemma field_tuple_prefix h h' o fields t :
  h `prefix_of` h' → field_tuple h o fields = Ok t → field_tuple h' o fields = Ok t.
Proof.
  intros Hp. revert t. induction fields as [|f fields IH]; intros t; [done|].
  simpl. destruct (getattr h o f) as [v|] eqn:Hv; [|done].
  rewrite (getattr_prefix _ _ _ _ _ Hp Hv). simpl.
  destruct (field_tuple h o fields) as [vs|]; [|done].
  by rewrite (IH vs).
Qed.

Lemma field_tuple_Config h l cls a1 a2 a3 a4 :
  h !! l = Some (OInstance cls (instance_attrs a1 a2 a3 a4)) →
  field_tuple h (VRef l) Config_fields = Ok [a1; a2; a3; a4].
Proof. intros Hl. simpl. by rewrite Hl. Qed.

(** ** Equality *)

Lemma all_eq_mono (f g : value → value → res bool) ps :
  (∀ a b, f a b = Ok true → g a b = Ok true) →
  all_eq f ps = Ok true → all_eq g ps = Ok true.
Proof.
  intros Hfg. induction ps as [|[a b] ps IH]; [done|]. simpl.
  destruct (f a b) as [[]|] eqn:E; try done.
  by rewrite (Hfg _ _ E).
Qed.

Lemma dict_entries_eq_mono (f g : value → value → res bool) es d2 :
  (∀ a b, f a b = Ok true → g a b = Ok true) →
  dict_entries_eq f es d2 = Ok true → dict_entries_eq g es d2 = Ok true.
Proof.
  intros Hfg. induction es as [|[k a] es IH]; [done|]. simpl.
  destruct (d2 !! k) as [b|]; [|done].
  destruct (f a b) as [[]|] eqn:E; try done.
  by rewrite (Hfg _ _ E).
Qed.

(** Objects that compare equal still do after the heap has grown. *)
Lemma py_eq_prefix n h h' a b :
  h `prefix_of` h' → py_eq n h a b = Ok true → py_eq n h' a b = Ok true.
Proof.
  intros Hp. revert a b. induction n as [|n IH]; intros a b; [done|].
  simpl. case_bool_decide; [done|].
  destruct a as [| | | |l1], b as [| | | |l2]; try done.
  destruct (h !! l1) as [o1|] eqn:H1; [|done].
  destruct (h !! l2) as [o2|] eqn:H2; [|by destruct o1].
  rewrite (prefix_lookup_Some _ _ _ _ H1 Hp), (prefix_lookup_Some _ _ _ _ H2 Hp).
  destruct o1 as [d1|x1|c1 m1| |], o2 as [d2|x2|c2 m2| |]; try done.
  - case_bool_decide; [|done]. by apply dict_entries_eq_mono.
  - case_bool_decide; [|done]. by apply all_eq_mono.
  - case_bool_decide; [|done].
    destruct (h !! c1) as [k|] eqn:Hk; [|done].
    rewrite (prefix_lookup_Some _ _ _ _ Hk Hp).
    destruct k as [| | |fields fr cattrs|]; try done.
    destruct (field_tuple h (VRef l1) fields) as [t1|] eqn:E1; [|done].
    rewrite (field_tuple_prefix _ _ _ _ _ Hp E1). simpl.
    destruct (field_tuple h (VRef l2) fields) as [t2|] eqn:E2; [|done].
    rewrite (field_tuple_prefix _ _ _ _ _ Hp E2). simpl.
    by apply all_eq_mono.
Qed.

(** Equal values have the same truth value. *)
Lemma py_eq_truth n h a b x y :
  py_eq n h a b = Ok true → truth h a = Ok x → truth h b = Ok y → x = y.
Proof.
  destruct n as [|n]; [done|]. simpl.
  case_bool_decide as Hab; [subst b; congruence|].
  unfold truth.
  destruct a as [|u|z| |l1], b as [|u'|z'| |l2]; try done; simpl.
  - intros [= Hz%bool_decide_eq_true] [= <-] [= <-].
    subst z'. by destruct u.
  - intros [= Hz%bool_decide_eq_true] [= <-] [= <-].
    subst z. by destruct u'.
  - rewrite !mbind_unfold. unfold read.
    destruct (h !! l1) as [o1|]; [|done].
    destruct (h !! l2) as [o2|]; [|by destruct o1].
    destruct o1 as [d1|x1|c1 m1| |], o2 as [d2|x2|c2 m2| |]; try done; simpl.
    + case_bool_decide as Hsz; [|done]. intros _ [= <-] [= <-].
      f_equal. apply bool_decide_ext.
      rewrite <-!map_size_empty_iff. by rewrite Hsz.
    + case_bool_decide as Hsz; [|done]. intros _ [= <-] [= <-].
      f_equal. apply bool_decide_ext.
      rewrite <-!length_zero_iff_nil. by rewrite Hsz.
    + congruence.
Qed.

Lemma py_eq_refl n h a : py_eq (S n) h a a = Ok true.
Proof. simpl. by rewrite bool_decide_true. Qed.

Lemma py_eq_empty_dicts n h l1 l2 :
  h !! l1 = Some (ODict ∅) → h !! l2 = Some (ODict ∅) →
  py_eq (S n) h (VRef l1) (VRef l2) = Ok true.
Proof.
  intros H1 H2. simpl. case_bool_decide; [done|].
  rewrite H1, H2. by rewrite bool_decide_true.
Qed.

(** The [__eq__] that [@dataclass] generates, on two distinct instances of
    one class: their field tuples are compared element by element. *)
Lemma py_eq_instances n h l1 l2 c m1 m2 fields fr cattrs t1 t2 :
  l1 ≠ l2 →
  h !! l1 = Some (OInstance c m1) → h !! l2 = Some (OInstance c m2) →
  h !! c = Some (OClass fields fr cattrs) →
  field_tuple h (VRef l1) fields = Ok t1 →
  field_tuple h (VRef l2) fields = Ok t2 →
  py_eq (S n) h (VRef l1) (VRef l2) = all_eq (py_eq n h) (zip t1 t2).
Proof.
  intros Hne H1 H2 Hc E1 E2. simpl.
  rewrite bool_decide_false by congruence.
  rewrite H1, H2, bool_decide_true, Hc, E1, E2 by done.
  reflexivity.
Qed.

(** The fields that two calls of [from_parsed] compute from arguments it
    cannot tell apart are equal, once both calls have returned. *)
Lemma chosen_alike_eq n h ha hb hb' h2 v w a b :
  h `prefix_of` hb → h `prefix_of` h2 →
  ha `prefix_of` h2 → hb' `prefix_of` h2 →
  chosen h ha v a → chosen hb hb' w b → alike (S n) h v w →
  py_eq (S n) h2 a b = Ok true.
Proof.
  intros Pb P2 Pa Pb' Ca Cb [[Tv Tw]|(Tv & Tw & E)];
    pose proof (truth_prefix _ _ _ _ Pb Tw) as Tw'.
  - destruct Ca as [[? _]|(_ & la & -> & _ & Ha)]; [congruence|].
    destruct Cb as [[? _]|(_ & lb & -> & _ & Hb)]; [congruence|].
    apply py_eq_empty_dicts; by eapply prefix_lookup_Some.
  - destruct Ca as [[_ ->]|[? _]]; [|congruence].
    destruct Cb as [[_ ->]|[? _]]; [|congruence].
    by apply (py_eq_prefix _ h).
Qed.

Lemma from_parsed_twice n h cls fr attrs kw1 kw2 i1 h1 i2 h2 :
  h !! cls = Some (OClass Config_fields fr attrs) →
  NoDup kw1.*1 → kw1.*1 ⊆ Config_fields → Forall (λ kv, value_ok h kv.2) kw1 →
  NoDup kw2.*1 → kw2.*1 ⊆ Config_fields → Forall (λ kv, value_ok h kv.2) kw2 →
  (∀ name, name ∈ Config_fields → alike (S n) h (kwarg kw1 name) (kwarg kw2 name)) →
  from_parsed cls [] kw1 h = (Ok i1, h1) →
  from_parsed cls [] kw2 h1 = (Ok i2, h2) →
  i1 ≠ i2 ∧ py_eq (S (S n)) h2 i1 i2 = Ok true.
Proof.
  intros Hc Hnd1 Hk1 Hok1 Hnd2 Hk2 Hok2 Hal E1 E2.
  rewrite Forall_forall in Hok1, Hok2.
  destruct (from_parsed_spec h cls fr attrs kw1)
    as (a1 & a2 & a3 & a4 & h1' & F1 & P1 & A1 & A2 & A3 & A4);
    [done|done|done|by intros k v ?%Hok1|].
  rewrite F1 in E1. injection E1 as <- <-.
  set (o1 := OInstance cls (instance_attrs a1 a2 a3 a4)) in *.
  assert (h `prefix_of` h1' ++ [o1]) as Q1 by (by apply prefix_app_r).
  destruct (from_parsed_spec (h1' ++ [o1]) cls fr attrs kw2)
    as (b1 & b2 & b3 & b4 & h2' & F2 & P2 & B1 & B2 & B3 & B4);
    [by eapply prefix_lookup_Some|done|done| |].
  { intros k v ?%Hok2. by eapply value_ok_prefix. }
  rewrite F2 in E2. injection E2 as <- <-.
  set (o2 := OInstance cls (instance_attrs b1 b2 b3 b4)) in *.
  assert (h2' `prefix_of` h2' ++ [o2]) as Q2 by (by apply prefix_app_r).
  assert (h1' ++ [o1] `prefix_of` h2' ++ [o2]) as Q3 by (by etrans).
  assert (h `prefix_of` h2' ++ [o2]) as Q4 by (by etrans).
  assert (h1' `prefix_of` h2' ++ [o2]) as Q5.
  { etrans; [|exact Q3]. by apply prefix_app_r. }
  assert (length h1' < length h2') as Hlt.
  { apply prefix_length in P2. rewrite length_app in P2. simpl in P2. lia. }
  split; [intros [= ?]; lia|].
  erewrite (py_eq_instances _ _ (length h1') (length h2')).
  - instantiate (1 := [b1; b2; b3; b4]). instantiate (1 := [a1; a2; a3; a4]).
    cbn [zip zip_with all_eq].
    rewrite (chosen_alike_eq n h h1' (h1' ++ [o1]) h2' _ _ _ a1 b1 Q1 Q4 Q5 Q2 A1 B1)
      by (apply Hal; by apply (bool_decide_unpack _)).
    rewrite (chosen_alike_eq n h h1' (h1' ++ [o1]) h2' _ _ _ a2 b2 Q1 Q4 Q5 Q2 A2 B2)
      by (apply Hal; by apply (bool_decide_unpack _)).
    rewrite (chosen_alike_eq n h h1' (h1' ++ [o1]) h2' _ _ _ a3 b3 Q1 Q4 Q5 Q2 A3 B3)
      by (apply Hal; by apply (bool_decide_unpack _)).
    by rewrite (chosen_alike_eq n h h1' (h1' ++ [o1]) h2' _ _ _ a4 b4 Q1 Q4 Q5 Q2 A4 B4)
      by (apply Hal; by apply (bool_decide_unpack _)).
  - lia.
  - eapply prefix_lookup_Some; [apply lookup_fresh|exact Q3].
  - apply lookup_fresh.
  - eapply prefix_lookup_Some; [exact Hc|exact Q4].
  - eapply field_tuple_Config, prefix_lookup_Some; [apply lookup_fresh|exact Q3].
  - eapply field_tuple_Config, lookup_fresh.
Qed.

Lemma deref_dict_truth h v d :
  deref_dict h v = Some d → truth h v = Ok (negb (bool_decide (d = ∅))).
Proof.
  destruct v as [| | | |l]; try done. unfold truth. simpl.
  rewrite mbind_unfold. unfold read.
  destruct (h !! l) as [[]|]; try done. by intros [= ->].
Qed.

Lemma deref_dict_prefix h h' v d :
  h `prefix_of` h' → deref_dict h v = Some d → deref_dict h' v = Some d.
Proof.
  intros Hp. destruct v as [| | | |l]; try done. simpl.
  destruct (h !! l) as [o|] eqn:Hl; [|done].
  by rewrite (prefix_lookup_Some _ _ _ _ Hl Hp).
Qed.

(** What a field refers to, read off how it was chosen. *)
Lemma chosen_deref h h' v a :
  chosen h h' v a → h `prefix_of` h' →
  (truth h v = Ok false → deref_dict h' a = Some ∅) ∧
  (truth h v = Ok true → a = v) ∧
  (∀ d, deref_dict h v = Some d → deref_dict h' a = Some d).
Proof.
  intros [[Ht ->]|(Ht & l & -> & _ & Hl)] Hp.
  - split; [congruence|]. split; [done|].
    intros d Hd. by eapply deref_dict_prefix.
  - split; [intros _; simpl; by rewrite Hl|]. split; [congruence|].
    intros d Hd. rewrite (deref_dict_truth _ _ _ Hd) in Ht.
    injection Ht as Ht. apply negb_false_iff, bool_decide_eq_true in Ht.
    subst d. simpl. by rewrite Hl.
Qed.

(** The form of [from_parsed_spec] that the properties below start from:
    each field of the new instance is the outcome of its [or], and every
    other attribute is the class's. *)
Lemma from_parsed_fields h cls fr attrs kwargs :
  h !! cls = Some (OClass Config_fields fr attrs) →
  NoDup kwargs.*1 →
  kwargs.*1 ⊆ Config_fields →
  Forall (λ kv, value_ok h kv.2) kwargs →
  ∃ inst h',
    from_parsed cls [] kwargs h = (Ok inst, h') ∧
    h `prefix_of` h' ∧
    (∀ name, name ∈ Config_fields →
       ∃ a, getattr h' inst name = Ok a ∧ chosen h h' (kwarg kwargs name) a) ∧
    (∀ name, name ∉ Config_fields →
       getattr h' inst name = getattr h (VRef cls) name).
Proof.
  intros Hc Hnd Hk Hok. rewrite Forall_forall in Hok.
  destruct (from_parsed_spec h cls fr attrs kwargs)
    as (a1 & a2 & a3 & a4 & h4 & F & P & A1 & A2 & A3 & A4);
    [done|done|done|by intros k v ?%Hok|].
  set (o := OInstance cls (instance_attrs a1 a2 a3 a4)) in *.
  assert (h4 `prefix_of` h4 ++ [o]) as Q by (by apply prefix_app_r).
  assert (h `prefix_of` h4 ++ [o]) as Q' by (by etrans).
  exists (VRef (length h4)), (h4 ++ [o]).
  split; [done|]. split; [done|]. split.
  - destruct (instance_attrs_lookup a1 a2 a3 a4) as (L1 & L2 & L3 & L4).
    intros name Hname. unfold Config_fields in Hname.
    rewrite !elem_of_cons, elem_of_nil in Hname.
    destruct Hname as [->|[->|[->|[->|[]]]]];
      eexists; (split; [eapply getattr_own; [apply lookup_fresh|eassumption]|]);
      by eapply chosen_prefix.
  - intros name Hname. simpl. rewrite lookup_fresh. subst o. cbv beta iota.
    rewrite (prefix_lookup_Some _ _ _ _ Hc Q'), Hc.
    destruct (instance_attrs a1 a2 a3 a4 !! name) as [v|] eqn:E; [|done].
    exfalso. apply Hname, (proj1 (instance_attrs_dom a1 a2 a3 a4 name)).
    by rewrite E.
Qed.

(** ** Arguments that [from_parsed] does not distinguish *)

Lemma from_parsed_build cls kwargs h :
  NoDup kwargs.*1 →
  kwargs.*1 ⊆ Config_fields →
  from_parsed cls [] kwargs h
  = build cls (kwarg kwargs "class_crosswalk") (kwarg kwargs "class_accessors")
      (kwarg kwargs "derived_handles") (kwarg kwargs "wrapper_classes") h.
Proof.
  intros Hnd Hk.
  destruct (from_parsed_bind_keywords kwargs Hnd Hk) as (env & Hb & Henv).
  unfold from_parsed, build. rewrite Hb.
  rewrite (mbind_ok _ _ _ env h) by done.
  by rewrite !Henv by (by apply (bool_decide_unpack _)).
Qed.

Lemma same_choice_prefix h h' v w :
  h `prefix_of` h' → same_choice h v w → same_choice h' v w.
Proof.
  intros Hp [->|[Hv Hw]]; [by left|right].
  split; by eapply truth_prefix.
Qed.

Lemma or_empty_dict_same_choice h v w :
  same_choice h v w → or_empty_dict v h = or_empty_dict w h.
Proof.
  intros [->|[Hv Hw]]; [done|].
  by rewrite (or_empty_dict_falsy _ _ Hv), (or_empty_dict_falsy _ _ Hw).
Qed.

(** One step of [build]: the same [or], then continuations that agree on
    every heap that extends the current one. *)
Lemma or_empty_dict_bind_ext {B} h v w (f g : value → M B) :
  same_choice h v w →
  (∀ a h1, h `prefix_of` h1 → f a h1 = g a h1) →
  (or_empty_dict v ≫= f) h = (or_empty_dict w ≫= g) h.
Proof.
  intros Hs Hfg. rewrite !mbind_unfold.
  rewrite <-(or_empty_dict_same_choice _ _ _ Hs).
  pose proof (monotone_or_empty_dict v h) as P.
  destruct (or_empty_dict v h) as [[a|e] h1]; [|done].
  by apply Hfg.
Qed.

Lemma build_same_choice cls h v1 v2 v3 v4 w1 w2 w3 w4 :
  same_choice h v1 w1 → same_choice h v2 w2 →
  same_choice h v3 w3 → same_choice h v4 w4 →
  build cls v1 v2 v3 v4 h = build cls w1 w2 w3 w4 h.
Proof.
  intros S1 S2 S3 S4. unfold build.
  apply or_empty_dict_bind_ext; [done|]. intros a1 h1 P1.
  apply or_empty_dict_bind_ext; [by eapply same_choice_prefix|]. intros a2 h2 P2.
  assert (h `prefix_of` h2) as Q2 by (by etrans).
  apply or_empty_dict_bind_ext; [by eapply same_choice_prefix|]. intros a3 h3 P3.
  assert (h `prefix_of` h3) as Q3 by (by etrans).
  apply or_empty_dict_bind_ext; [by eapply same_choice_prefix|]. done.
Qed.

(** ** Properties of [Config.from_parsed] *)

Lemma NoDup_Config_fields : NoDup Config_fields.
Proof. by apply (bool_decide_unpack _). Qed.

Lemma mapping_value_ok h v : is_Some (deref_dict h v) → value_ok h v.
Proof. intros [d Hd]. eexists. by apply deref_dict_truth. Qed.

Lemma class_defined_lookup h cls :
  class_defined h cls →
  ∃ attrs, h !! cls = Some (OClass Config_fields true attrs).
Proof. intros (lr & lp & Hc & _). eauto. Qed.

Lemma demo_heap_defined : class_defined demo_heap 2.
Proof.
  apply (class_defined_prefix (Config []).2); [by apply prefix_app_r|].
  apply (Config_class_defined []).
Qed.

(** C1.  Whatever subset of the four keyword arguments a call leaves out,
    the call returns an instance in which each omitted field refers to an
    empty dict and each supplied field to a dict equal to the mapping that
    was passed for it. *)
Theorem from_parsed_omitted_subset h cls kwargs :
  class_defined h cls →
  NoDup kwargs.*1 →
  kwargs.*1 ⊆ Config_fields →
  Forall (λ kv, is_Some (deref_dict h kv.2)) kwargs →
  ∃ inst h',
    from_parsed cls [] kwargs h = (Ok inst, h') ∧
    ∀ name, name ∈ Config_fields →
      ∃ a, getattr h' inst name = Ok a ∧
           (name ∉ kwargs.*1 → deref_dict h' a = Some ∅) ∧
           (∀ v, (name, v) ∈ kwargs →
                 deref_dict h' a = deref_dict h v ∧
                 ∀ n, py_eq (S n) h' a v = Ok true).
Proof.
  intros [attrs Hc]%class_defined_lookup Hnd Hk Hmap.
  destruct (from_parsed_fields h cls true attrs kwargs)
    as (inst & h' & E & P & Hf & _); [done|done|done| |].
  { eapply Forall_impl; [exact Hmap|]. intros kv. apply mapping_value_ok. }
  exists inst, h'. split; [done|].
  intros name Hname. destruct (Hf name Hname) as (a & Ha & Hch).
  exists a. split; [done|].
  destruct (chosen_deref _ _ _ _ Hch P) as (Hfalse & _ & Hd).
  split.
  - intros Hom. apply Hfalse. by rewrite (kwarg_omitted _ _ Hom).
  - intros v Hv. rewrite (kwarg_supplied _ _ _ Hnd Hv) in Hd, Hch.
    rewrite Forall_forall in Hmap. destruct (Hmap _ Hv) as [d Hvd].
    simpl in Hvd. rewrite Hvd. split; [by apply Hd|]. intros n.
    destruct Hch as [[_ ->]|(Ht & l & -> & _ & Hl)]; [apply py_eq_refl|].
    rewrite (deref_dict_truth _ _ _ Hvd) in Ht.
    injection Ht as Ht. apply negb_false_iff, bool_decide_eq_true in Ht.
    subst d. destruct v as [| | | |lv]; try done.
    apply py_eq_empty_dicts; [done|].
    pose proof (deref_dict_prefix _ _ _ _ P Hvd) as Hv'. simpl in Hv'.
    by destruct (h' !! lv) as [[]|]; simplify_eq.
Qed.

Lemma from_parsed_omitted_subset_witness :
  ∃ inst h',
    from_parsed 2 [] [("derived_handles", VRef 8); ("class_crosswalk", VRef 3)]
                demo_heap = (Ok inst, h') ∧
    ∀ name, name ∈ Config_fields →
      ∃ a, getattr h' inst name = Ok a ∧
           (name ∉ [("derived_handles", VRef 8); ("class_crosswalk", VRef 3)].*1 →
            deref_dict h' a = Some ∅) ∧
           (∀ v, (name, v) ∈ [("derived_handles", VRef 8); ("class_crosswalk", VRef 3)] →
                 deref_dict h' a = deref_dict demo_heap v ∧
                 ∀ n, py_eq (S n) h' a v = Ok true).
Proof.
  apply (from_parsed_omitted_subset demo_heap 2).
  - exact demo_heap_defined.
  - apply (bool_decide_unpack _). vm_compute. exact I.
  - apply (bool_decide_unpack _). vm_compute. exact I.
  - repeat constructor; vm_compute; eauto.
Defined.

(** C3.  Called with all four arguments, each a non-empty mapping, the
    factory returns an instance whose four fields are the very objects that
    were passed, and those objects hold what they held before the call. *)
Theorem from_parsed_all_supplied h cls kwargs :
  class_defined h cls →
  kwargs.*1 ≡ₚ Config_fields →
  Forall (λ kv, ∃ d, deref_dict h kv.2 = Some d ∧ d ≠ ∅) kwargs →
  ∃ inst h',
    from_parsed cls [] kwargs h = (Ok inst, h') ∧
    ∀ name v, (name, v) ∈ kwargs →
      getattr h' inst name = Ok v ∧ deref_dict h' v = deref_dict h v.
Proof.
  intros [attrs Hc]%class_defined_lookup Hperm Hpop.
  assert (NoDup kwargs.*1) as Hnd.
  { rewrite Hperm. apply NoDup_Config_fields. }
  assert (kwargs.*1 ⊆ Config_fields) as Hk.
  { intros k. by rewrite Hperm. }
  destruct (from_parsed_fields h cls true attrs kwargs)
    as (inst & h' & E & P & Hf & _); [done|done|done| |].
  { eapply Forall_impl; [exact Hpop|]. intros kv (d & Hd & _).
    apply mapping_value_ok. by rewrite Hd. }
  exists inst, h'. split; [done|].
  intros name v Hv. rewrite Forall_forall in Hpop.
  destruct (Hpop _ Hv) as (d & Hd & Hne). simpl in Hd.
  assert (name ∈ Config_fields) as Hname.
  { apply Hk, list_elem_of_fmap. by exists (name, v). }
  destruct (Hf name Hname) as (a & Ha & Hch).
  rewrite (kwarg_supplied _ _ _ Hnd Hv) in Hch.
  destruct (chosen_deref _ _ _ _ Hch P) as (_ & Htrue & _).
  rewrite Htrue in Ha.
  - split; [done|]. rewrite Hd. by eapply deref_dict_prefix.
  - rewrite (deref_dict_truth _ _ _ Hd). by rewrite bool_decide_false.
Qed.

Lemma from_parsed_all_supplied_witness :
  ∃ inst h',
    from_parsed 2 []
      [ ("wrapper_classes", VRef 7); ("class_crosswalk", VRef 3);
        ("class_accessors", VRef 4); ("derived_handles", VRef 5) ]
      demo_heap = (Ok inst, h') ∧
    ∀ name v,
      (name, v) ∈ [ ("wrapper_classes", VRef 7); ("class_crosswalk", VRef 3);
                    ("class_accessors", VRef 4); ("derived_handles", VRef 5) ] →
      getattr h' inst name = Ok v ∧ deref_dict h' v = deref_dict demo_heap v.
Proof.
  apply (from_parsed_all_supplied demo_heap 2).
  - exact demo_heap_defined.
  - apply (bool_decide_unpack _). vm_compute. exact I.
  - repeat (apply Forall_cons_2;
            [eexists; split; [reflexivity|apply map_non_empty_singleton]|]).
    apply Forall_nil_2.
Defined.

(** C5, amended.  [from_parsed] raises nothing of its own, whatever is
    passed for its keyword arguments and whichever are left out, provided
    the truth test of each value passed returns: it checks nothing about the
    values, stores a truthy one in its field as it is, and puts an empty
    dict where the value is falsy or missing.  (The truth test is the one
    thing [x or {}] does with [x]; when it raises, so does the call.) *)
Theorem from_parsed_never_raises h cls kwargs :
  class_defined h cls →
  NoDup kwargs.*1 →
  kwargs.*1 ⊆ Config_fields →
  Forall (λ kv, value_ok h kv.2) kwargs →
  ∃ inst h',
    from_parsed cls [] kwargs h = (Ok inst, h') ∧
    ∀ name, name ∈ Config_fields →
      ∃ a, getattr h' inst name = Ok a ∧
           (truth h (kwarg kwargs name) = Ok true → a = kwarg kwargs name) ∧
           (truth h (kwarg kwargs name) = Ok false → deref_dict h' a = Some ∅).
Proof.
  intros [attrs Hc]%class_defined_lookup Hnd Hk Hok.
  destruct (from_parsed_fields h cls true attrs kwargs Hc Hnd Hk Hok)
    as (inst & h' & E & P & Hf & _).
  exists inst, h'. split; [done|].
  intros name Hname. destruct (Hf name Hname) as (a & Ha & Hch).
  exists a. split; [done|].
  destruct (chosen_deref _ _ _ _ Hch P) as (Hfalse & Htrue & _). done.
Qed.

Lemma from_parsed_never_raises_witness :
  ∃ inst h',
    from_parsed 2 []
      [ ("class_accessors", VInt 7); ("wrapper_classes", VRef 9);
        ("class_crosswalk", VStr "") ]
      demo_heap = (Ok inst, h') ∧
    ∀ name, name ∈ Config_fields →
      ∃ a, getattr h' inst name = Ok a ∧
           (truth demo_heap
              (kwarg [ ("class_accessors", VInt 7); ("wrapper_classes", VRef 9);
                       ("class_crosswalk", VStr "") ] name) = Ok true →
            a = kwarg [ ("class_accessors", VInt 7); ("wrapper_classes", VRef 9);
                        ("class_crosswalk", VStr "") ] name) ∧
           (truth demo_heap
              (kwarg [ ("class_accessors", VInt 7); ("wrapper_classes", VRef 9);
                       ("class_crosswalk", VStr "") ] name) = Ok false →
            deref_dict h' a = Some ∅).
Proof.
  apply (from_parsed_never_raises demo_heap 2).
  - exact demo_heap_defined.
  - apply (bool_decide_unpack _). vm_compute. exact I.
  - apply (bool_decide_unpack _). vm_compute. exact I.
  - repeat constructor; vm_compute; eauto.
Defined.

(** C5 as stated fails: for an argument whose truth test raises, the call
    raises.  The class is defined, the keywords are two of the four, the
    object passed for [class_accessors] exists; [x or {}] tests it, and the
    [ValueError] of the test ends the call. *)
Lemma from_parsed_never_raises_counterexample :
  class_defined ambiguous_heap 2 ∧
  NoDup [("class_crosswalk", VRef 3); ("class_accessors", VRef 10)].*1 ∧
  [("class_crosswalk", VRef 3); ("class_accessors", VRef 10)].*1 ⊆ Config_fields ∧
  ambiguous_heap !! 10 = Some OAmbiguous ∧
  from_parsed 2 [] [("class_crosswalk", VRef 3); ("class_accessors", VRef 10)]
    ambiguous_heap
  = (Raise ValueError, ambiguous_heap) ∧
  ¬ ∃ inst h',
      from_parsed 2 [] [("class_crosswalk", VRef 3); ("class_accessors", VRef 10)]
        ambiguous_heap
      = (Ok inst, h').
Proof.
  assert (from_parsed 2 []
            [("class_crosswalk", VRef 3); ("class_accessors", VRef 10)]
            ambiguous_heap
          = (Raise ValueError, ambiguous_heap)) as E
    by (vm_compute; reflexivity).
  split; [|split; [|split; [|split; [|split]]]].
  - apply (class_defined_prefix demo_heap); [by apply prefix_app_r|].
    exact demo_heap_defined.
  - apply (bool_decide_unpack _). vm_compute. exact I.
  - apply (bool_decide_unpack _). vm_compute. exact I.
  - reflexivity.
  - exact E.
  - intros (inst & h' & E'). rewrite E in E'. discriminate E'.
Qed.

(** C7.  Called with no arguments, the factory returns an instance whose
    four variable fields each refer to an empty dict, and whose two fixed
    attributes are the class's dicts of five and of two entries. *)
Theorem from_parsed_no_arguments h cls :
  class_defined h cls →
  ∃ inst h',
    from_parsed cls [] [] h = (Ok inst, h') ∧
    (∀ name, name ∈ Config_fields →
       ∃ a, getattr h' inst name = Ok a ∧ deref_dict h' a = Some ∅) ∧
    (∃ r, getattr h' inst "ret_type_crosswalk" = Ok r ∧
          deref_dict h' r = Some ret_type_crosswalk) ∧
    (∃ p, getattr h' inst "prop_type_crosswalk" = Ok p ∧
          deref_dict h' p = Some prop_type_crosswalk) ∧
    size ret_type_crosswalk = 5 ∧
    size prop_type_crosswalk = 2.
Proof.
  intros (lr & lp & Hc & Hr & Hp).
  destruct (from_parsed_fields h cls true (Config_attrs lr lp) [])
    as (inst & h' & E & P & Hf & Hcls);
    [done|apply NoDup_nil_2|by intros ? ?%elem_of_nil|apply Forall_nil_2|].
  exists inst, h'. split; [done|]. split; [|split; [|split]].
  - intros name Hname. destruct (Hf name Hname) as (a & Ha & Hch).
    exists a. split; [done|].
    destruct (chosen_deref _ _ _ _ Hch P) as (Hfalse & _). by apply Hfalse.
  - exists (VRef lr). rewrite Hcls by (by apply (bool_decide_unpack _)).
    simpl. rewrite Hc, (prefix_lookup_Some _ _ _ _ Hr P). done.
  - exists (VRef lp). rewrite Hcls by (by apply (bool_decide_unpack _)).
    simpl. rewrite Hc, (prefix_lookup_Some _ _ _ _ Hp P). done.
  - split; reflexivity.
Qed.

Lemma from_parsed_no_arguments_witness :
  ∃ inst h',
    from_parsed 2 [] [] demo_heap = (Ok inst, h') ∧
    (∀ name, name ∈ Config_fields →
       ∃ a, getattr h' inst name = Ok a ∧ deref_dict h' a = Some ∅) ∧
    (∃ r, getattr h' inst "ret_type_crosswalk" = Ok r ∧
          deref_dict h' r = Some ret_type_crosswalk) ∧
    (∃ p, getattr h' inst "prop_type_crosswalk" = Ok p ∧
          deref_dict h' p = Some prop_type_crosswalk) ∧
    size ret_type_crosswalk = 5 ∧
    size prop_type_crosswalk = 2.
Proof. apply (from_parsed_no_arguments demo_heap 2). exact demo_heap_defined. Defined.

Lemma py_eq_alike n h v w :
  value_ok h v → value_ok h w →
  py_eq (S n) h v w = Ok true → alike (S n) h v w.
Proof.
  intros [x Hx]%truth_ok [y Hy]%truth_ok E.
  pose proof (py_eq_truth _ _ _ _ _ _ E Hx Hy) as <-.
  destruct x; [right|left]; done.
Qed.

(** C6.  [from_parsed] has no effect on what exists: whatever it is called
    with and however it ends, every object of the heap is afterwards what it
    was before (only new objects appear).  And two calls, one after the
    other, with equal arguments both return, and return instances that
    compare equal. *)
Theorem from_parsed_pure cls :
  (∀ args kwargs h, h `prefix_of` (from_parsed cls args kwargs h).2) ∧
  (∀ n h kw1 kw2,
     class_defined h cls →
     NoDup kw1.*1 → kw1.*1 ⊆ Config_fields → Forall (λ kv, value_ok h kv.2) kw1 →
     NoDup kw2.*1 → kw2.*1 ⊆ Config_fields → Forall (λ kv, value_ok h kv.2) kw2 →
     (∀ name, name ∈ Config_fields →
        py_eq (S n) h (kwarg kw1 name) (kwarg kw2 name) = Ok true) →
     ∃ i1 h1 i2 h2,
       from_parsed cls [] kw1 h = (Ok i1, h1) ∧
       from_parsed cls [] kw2 h1 = (Ok i2, h2) ∧
       i1 ≠ i2 ∧
       py_eq (S (S n)) h2 i1 i2 = Ok true).
Proof.
  split; [intros args kwargs; apply monotone_from_parsed|].
  intros n h kw1 kw2 [attrs Hc]%class_defined_lookup Hnd1 Hk1 Hok1 Hnd2 Hk2 Hok2 Heq.
  destruct (from_parsed_fields h cls true attrs kw1 Hc Hnd1 Hk1 Hok1)
    as (i1 & h1 & E1 & P1 & _).
  destruct (from_parsed_fields h1 cls true attrs kw2)
    as (i2 & h2 & E2 & P2 & _); [by eapply prefix_lookup_Some|done|done| |].
  { eapply Forall_impl; [exact Hok2|]. intros kv. by apply value_ok_prefix. }
  exists i1, h1, i2, h2. split; [done|]. split; [done|].
  apply (from_parsed_twice n h cls true attrs kw1 kw2 i1 h1 i2 h2); try done.
  intros name Hname. rewrite Forall_forall in Hok1, Hok2.
  apply py_eq_alike; [apply kwarg_ok|apply kwarg_ok|by apply Heq].
  - intros k v Hv. by apply (Hok1 _ Hv).
  - intros k v Hv. by apply (Hok2 _ Hv).
Qed.

Lemma from_parsed_pure_witness :
  ∃ i1 h1 i2 h2,
    from_parsed 2 [] [("wrapper_classes", VRef 7); ("class_accessors", VInt 1)]
                demo_heap = (Ok i1, h1) ∧
    from_parsed 2 [] [("class_accessors", VBool true); ("wrapper_classes", VRef 7)]
                h1 = (Ok i2, h2) ∧
    i1 ≠ i2 ∧
    py_eq 2 h2 i1 i2 = Ok true.
Proof.
  apply (proj2 (from_parsed_pure 2) 0 demo_heap).
  - exact demo_heap_defined.
  - apply (bool_decide_unpack _). vm_compute. exact I.
  - apply (bool_decide_unpack _). vm_compute. exact I.
  - repeat constructor; vm_compute; eauto.
  - apply (bool_decide_unpack _). vm_compute. exact I.
  - apply (bool_decide_unpack _). vm_compute. exact I.
  - repeat constructor; vm_compute; eauto.
  - intros name Hname. unfold Config_fields in Hname.
    rewrite !elem_of_cons, elem_of_nil in Hname.
    destruct Hname as [->|[->|[->|[->|[]]]]]; vm_compute; reflexivity.
Defined.

(** C8.  Passing an empty dict for an argument and leaving that argument
    out come to the same.  From one and the same heap the two calls have
    the same outcome, result and heap alike; and of two calls made one after
    the other, one with the empty dict and one without, in either order,
    both return, and the two instances compare equal. *)
Theorem from_parsed_empty_as_omitted n h cls kwargs name e :
  class_defined h cls →
  NoDup kwargs.*1 →
  kwargs.*1 ⊆ Config_fields →
  Forall (λ kv, value_ok h kv.2) kwargs →
  name ∈ Config_fields →
  name ∉ kwargs.*1 →
  deref_dict h e = Some ∅ →
  from_parsed cls [] ((name, e) :: kwargs) h = from_parsed cls [] kwargs h ∧
  (∃ i1 h1 i2 h2,
     from_parsed cls [] ((name, e) :: kwargs) h = (Ok i1, h1) ∧
     from_parsed cls [] kwargs h1 = (Ok i2, h2) ∧
     py_eq (S (S n)) h2 i1 i2 = Ok true) ∧
  (∃ i1 h1 i2 h2,
     from_parsed cls [] kwargs h = (Ok i1, h1) ∧
     from_parsed cls [] ((name, e) :: kwargs) h1 = (Ok i2, h2) ∧
     py_eq (S (S n)) h2 i1 i2 = Ok true).
Proof.
  intros [attrs Hc]%class_defined_lookup Hnd Hk Hok Hname Hfresh He.
  assert (NoDup ((name, e) :: kwargs).*1) as Hnd'.
  { simpl. by apply NoDup_cons_2. }
  assert (((name, e) :: kwargs).*1 ⊆ Config_fields) as Hk'.
  { simpl. intros k [->|Hin]%elem_of_cons; [done|by apply Hk]. }
  assert (Forall (λ kv, value_ok h kv.2) ((name, e) :: kwargs)) as Hok'.
  { apply Forall_cons_2; [|done]. apply mapping_value_ok. simpl. by rewrite He. }
  assert (∀ x, x ∈ Config_fields →
            alike (S n) h (kwarg ((name, e) :: kwargs) x) (kwarg kwargs x) ∧
            alike (S n) h (kwarg kwargs x) (kwarg ((name, e) :: kwargs) x))
    as Halike.
  { intros x Hx. destruct (decide (x = name)) as [->|Hne].
    - rewrite (kwarg_supplied _ name e Hnd') by (by left).
      rewrite (kwarg_omitted _ _ Hfresh).
      pose proof (deref_dict_truth _ _ _ He) as Te.
      rewrite bool_decide_true in Te by done.
      split; left; done.
    - assert (kwarg ((name, e) :: kwargs) x = kwarg kwargs x) as ->.
      { unfold kwarg. simpl. by rewrite lookup_insert_ne. }
      rewrite Forall_forall in Hok.
      assert (value_ok h (kwarg kwargs x)) as Hv.
      { apply kwarg_ok. intros k v Hv. by apply (Hok _ Hv). }
      destruct (truth_ok _ _ Hv) as [[] Hb].
      + split; right; (split; [done|split; [done|apply py_eq_refl]]).
      + split; left; done. }
  split; [|split].
  - rewrite !from_parsed_build by done.
    pose proof (deref_dict_truth _ _ _ He) as Te.
    rewrite bool_decide_true in Te by done.
    assert (∀ x, same_choice h (kwarg ((name, e) :: kwargs) x) (kwarg kwargs x))
      as Hsame.
    { intros x. destruct (decide (x = name)) as [->|Hne].
      - rewrite (kwarg_supplied _ name e Hnd') by (by left).
        rewrite (kwarg_omitted _ _ Hfresh). by right.
      - left. unfold kwarg. simpl. by rewrite lookup_insert_ne. }
    by apply build_same_choice.
  - destruct (from_parsed_fields h cls true attrs _ Hc Hnd' Hk' Hok')
      as (i1 & h1 & E1 & P1 & _).
    destruct (from_parsed_fields h1 cls true attrs kwargs)
      as (i2 & h2 & E2 & P2 & _); [by eapply prefix_lookup_Some|done|done| |].
    { eapply Forall_impl; [exact Hok|]. intros kv. by apply value_ok_prefix. }
    exists i1, h1, i2, h2. split; [done|]. split; [done|].
    apply (from_parsed_twice n h cls true attrs ((name, e) :: kwargs) kwargs
             i1 h1 i2 h2); try done.
    intros x Hx. by apply Halike.
  - destruct (from_parsed_fields h cls true attrs _ Hc Hnd Hk Hok)
      as (i1 & h1 & E1 & P1 & _).
    destruct (from_parsed_fields h1 cls true attrs ((name, e) :: kwargs))
      as (i2 & h2 & E2 & P2 & _); [by eapply prefix_lookup_Some|done|done| |].
    { eapply Forall_impl; [exact Hok'|]. intros kv. by apply value_ok_prefix. }
    exists i1, h1, i2, h2. split; [done|]. split; [done|].
    apply (from_parsed_twice n h cls true attrs kwargs ((name, e) :: kwargs)
             i1 h1 i2 h2); try done.
    intros x Hx. by apply Halike.
Qed.

Lemma from_parsed_empty_as_omitted_witness :
  from_parsed 2 [] [("derived_handles", VRef 8); ("class_crosswalk", VRef 3)]
              demo_heap
  = from_parsed 2 [] [("class_crosswalk", VRef 3)] demo_heap ∧
  (∃ i1 h1 i2 h2,
     from_parsed 2 [] [("derived_handles", VRef 8); ("class_crosswalk", VRef 3)]
                 demo_heap = (Ok i1, h1) ∧
     from_parsed 2 [] [("class_crosswalk", VRef 3)] h1 = (Ok i2, h2) ∧
     py_eq 2 h2 i1 i2 = Ok true) ∧
  (∃ i1 h1 i2 h2,
     from_parsed 2 [] [("class_crosswalk", VRef 3)] demo_heap = (Ok i1, h1) ∧
     from_parsed 2 [] [("derived_handles", VRef 8); ("class_crosswalk", VRef 3)]
                 h1 = (Ok i2, h2) ∧
     py_eq 2 h2 i1 i2 = Ok true).
Proof.
  apply (from_parsed_empty_as_omitted 0 demo_heap 2).
  - exact demo_heap_defined.
  - apply (bool_decide_unpack _). vm_compute. exact I.
  - apply (bool_decide_unpack _). vm_compute. exact I.
  - repeat constructor; vm_compute; eauto.
  - apply (bool_decide_unpack _). vm_compute. exact I.
  - apply (bool_decide_unpack _). vm_compute. exact I.
  - reflexivity.
Defined.




(** ** Instances are frozen *)

Lemma mbind_Ok_inv {A B} (m : M A) (f : A → M B) h b h' :
  (m ≫= f) h = (Ok b, h') → ∃ a h1, m h = (Ok a, h1) ∧ f a h1 = (Ok b, h').
Proof.
  rewrite mbind_unfold. destruct (m h) as [[a|e] h1]; [eauto|done].
Qed.

Lemma call_class_Ok_inv h cls args kwargs inst h' :
  call_class cls args kwargs h = (Ok inst, h') →
  ∃ fields fr attrs env,
    h !! cls = Some (OClass fields fr attrs) ∧
    bind_args (Signature fields []) args kwargs = Ok env ∧
    inst = VRef (length h) ∧
    h' = h ++ [OInstance cls (foldl (λ m f, <[f := env !!! f]> m) ∅ fields)].
Proof.
  intros E. destruct (h !! cls) as [o|] eqn:Hc.
  - destruct o as [| | |fields fr attrs|];
      try (unfold call_class in E;
           rewrite (mbind_ok _ _ _ _ _ (read_ok _ _ _ Hc)) in E; done).
    destruct (bind_args (Signature fields []) args kwargs) as [env|e] eqn:Hb.
    + rewrite (call_class_ok _ _ _ _ _ _ _ _ Hc Hb) in E.
      injection E as <- <-. by exists fields, fr, attrs, env.
    + by rewrite (call_class_raise _ _ _ _ _ _ _ _ Hc Hb) in E.
  - unfold call_class in E. rewrite mbind_unfold in E. unfold read in E.
    by rewrite Hc in E.
Qed.

(** Whatever [from_parsed] is called with, what it returns, if it returns,
    is a new object: an instance of [cls] with exactly the four fields. *)
Lemma from_parsed_Ok_inv h cls fr attrs args kwargs inst h' :
  h !! cls = Some (OClass Config_fields fr attrs) →
  from_parsed cls args kwargs h = (Ok inst, h') →
  ∃ l a1 a2 a3 a4,
    inst = VRef l ∧ h `prefix_of` h' ∧ h !! l = None ∧
    h' !! l = Some (OInstance cls (instance_attrs a1 a2 a3 a4)).
Proof.
  intros Hc E.
  pose proof (monotone_from_parsed cls args kwargs h) as P.
  rewrite E in P. simpl in P.
  unfold from_parsed in E.
  apply mbind_Ok_inv in E as (env & h0 & E0 & E). injection E0 as _ <-.
  apply mbind_Ok_inv in E as (a1 & h1 & E1 & E).
  apply mbind_Ok_inv in E as (a2 & h2 & E2 & E).
  apply mbind_Ok_inv in E as (a3 & h3 & E3 & E).
  apply mbind_Ok_inv in E as (a4 & h4 & E4 & E).
  assert (h `prefix_of` h4) as P4.
  { pose proof (monotone_or_empty_dict (env !!! "class_crosswalk") h) as Q1.
    pose proof (monotone_or_empty_dict (env !!! "class_accessors") h1) as Q2.
    pose proof (monotone_or_empty_dict (env !!! "derived_handles") h2) as Q3.
    pose proof (monotone_or_empty_dict (env !!! "wrapper_classes") h3) as Q4.
    rewrite E1 in Q1. rewrite E2 in Q2. rewrite E3 in Q3. rewrite E4 in Q4.
    simpl in *. etrans; [exact Q1|]. etrans; [exact Q2|]. by etrans. }
  apply call_class_Ok_inv in E as (fields & fr' & attrs' & env' & Hc' & Hb & -> & ->).
  rewrite (prefix_lookup_Some _ _ _ _ Hc P4) in Hc'. injection Hc' as <- <- <-.
  rewrite Config_init_bind in Hb. injection Hb as <-.
  rewrite instance_attrs_fields.
  exists (length h4), a1, a2, a3, a4.
  split; [done|]. split; [done|]. split; [|apply lookup_fresh].
  apply lookup_ge_None. by apply prefix_length.
Qed.

Lemma call_Config_Ok_inv h cls fr attrs args kwargs inst h' :
  h !! cls = Some (OClass Config_fields fr attrs) →
  call_class cls args kwargs h = (Ok inst, h') →
  ∃ env,
    bind_args (Signature Config_fields []) args kwargs = Ok env ∧
    inst = VRef (length h) ∧
    h' = h ++ [OInstance cls
                 (instance_attrs (env !!! "class_crosswalk")
                    (env !!! "class_accessors") (env !!! "derived_handles")
                    (env !!! "wrapper_classes"))].
Proof.
  intros Hc E.
  apply call_class_Ok_inv in E as (fields & fr' & attrs' & env & Hc' & Hb & -> & ->).
  rewrite Hc in Hc'. injection Hc' as <- <- <-. by exists env.
Qed.

(** However an instance was constructed, it is a new object with exactly
    the four fields, and nothing that existed has changed. *)
Lemma constructs_inv h cls fr attrs inst h' :
  h !! cls = Some (OClass Config_fields fr attrs) →
  constructs cls h inst h' →
  ∃ l a1 a2 a3 a4,
    inst = VRef l ∧ h `prefix_of` h' ∧ h !! l = None ∧
    h' !! l = Some (OInstance cls (instance_attrs a1 a2 a3 a4)).
Proof.
  intros Hc (args & kwargs & [E|E]).
  - by eapply from_parsed_Ok_inv.
  - apply (call_Config_Ok_inv _ _ _ _ _ _ _ _ Hc) in E as (env & _ & -> & ->).
    do 5 eexists. split; [done|]. split; [by apply prefix_app_r|].
    split; [by apply lookup_ge_None|apply lookup_fresh].
Qed.

(** Assigning to, or deleting, any attribute of an instance of a frozen
    class raises [FrozenInstanceError] and changes nothing. *)
Lemma setattr_frozen h l cls m fields attrs name v :
  h !! l = Some (OInstance cls m) →
  h !! cls = Some (OClass fields true attrs) →
  setattr (VRef l) name v h = Some (Raise FrozenInstanceError, h).
Proof.
  intros Hl Hc. unfold setattr. rewrite Hl. f_equal.
  unfold instance_setattr.
  rewrite (mbind_ok _ _ _ _ _ (read_ok _ _ _ Hc)).
  unfold frozen_setattr.
  rewrite (mbind_ok _ _ _ _ _ (read_ok _ _ _ Hl)).
  by rewrite bool_decide_true.
Qed.

Lemma delattr_frozen h l cls m fields attrs name :
  h !! l = Some (OInstance cls m) →
  h !! cls = Some (OClass fields true attrs) →
  delattr (VRef l) name h = Some (Raise FrozenInstanceError, h).
Proof.
  intros Hl Hc. unfold delattr. rewrite Hl. f_equal.
  unfold instance_delattr.
  rewrite (mbind_ok _ _ _ _ _ (read_ok _ _ _ Hc)).
  unfold frozen_delattr.
  rewrite (mbind_ok _ _ _ _ _ (read_ok _ _ _ Hl)).
  by rewrite bool_decide_true.
Qed.

(** While the class is frozen, a step only ever adds objects: the calls
    allocate, and the attribute statements raise without effect. *)
Lemma step_prefix cls fields attrs h h' :
  h !! cls = Some (OClass fields true attrs) →
  step cls h h' → h `prefix_of` h'.
Proof.
  intros Hc S. destruct S as [h args kwargs|h args kwargs|h l m name v r h' Hl E
                             |h l m name r h' Hl E].
  - apply monotone_from_parsed.
  - apply monotone_call_class.
  - rewrite (setattr_frozen _ _ _ _ _ _ name v Hl Hc) in E. by injection E as _ <-.
  - rewrite (delattr_frozen _ _ _ _ _ _ name Hl Hc) in E. by injection E as _ <-.
Qed.

Lemma steps_prefix cls fields attrs h h' :
  h !! cls = Some (OClass fields true attrs) →
  rtc (step cls) h h' → h `prefix_of` h'.
Proof.
  intros Hc S. induction S as [h|h1 h2 h3 S1 S IH]; [done|].
  pose proof (step_prefix _ _ _ _ _ Hc S1) as P.
  etrans; [exact P|]. apply IH. by eapply prefix_lookup_Some.
Qed.

(** C4.  An instance is immutable once constructed, whether by the
    factory or by calling the class.  At any later time, whatever steps
    (calls of the factory or of the class, assignments to and deletions of
    attributes of instances) have run in between, assigning to any of its
    attributes, a field or not, raises [FrozenInstanceError] and leaves the
    heap as it was, and so does deleting one; and every instance of the
    class that existed is still the object it was.  Statements that rebind
    the attributes of the class object itself are not steps. *)
Theorem Config_immutable h cls inst h' h'' :
  class_defined h cls →
  constructs cls h inst h' →
  rtc (step cls) h' h'' →
  (∀ name v, setattr inst name v h'' = Some (Raise FrozenInstanceError, h'')) ∧
  (∀ name, delattr inst name h'' = Some (Raise FrozenInstanceError, h'')) ∧
  (∀ l m,
     h' !! l = Some (OInstance cls m) → h'' !! l = Some (OInstance cls m)).
Proof.
  intros [attrs Hc]%class_defined_lookup E S.
  destruct (constructs_inv _ _ _ _ _ _ Hc E)
    as (l & a1 & a2 & a3 & a4 & -> & P & _ & Hl).
  pose proof (prefix_lookup_Some _ _ _ _ Hc P) as Hc'.
  pose proof (steps_prefix _ _ _ _ _ Hc' S) as P'.
  pose proof (prefix_lookup_Some _ _ _ _ Hc' P') as Hc''.
  pose proof (prefix_lookup_Some _ _ _ _ Hl P') as Hl'.
  split; [|split].
  - intros name v. by eapply setattr_frozen.
  - intros name. by eapply delattr_frozen.
  - intros l' m Hl''. by eapply prefix_lookup_Some.
Qed.

Lemma Config_immutable_witness :
  (∀ name v,
     setattr (VRef 13) name v
       (from_parsed 2 [] []
          (from_parsed 2 [] [("class_crosswalk", VRef 3)] demo_heap).2).2
     = Some (Raise FrozenInstanceError,
             (from_parsed 2 [] []
                (from_parsed 2 [] [("class_crosswalk", VRef 3)] demo_heap).2).2)) ∧
  (∀ name,
     delattr (VRef 13) name
       (from_parsed 2 [] []
          (from_parsed 2 [] [("class_crosswalk", VRef 3)] demo_heap).2).2
     = Some (Raise FrozenInstanceError,
             (from_parsed 2 [] []
                (from_parsed 2 [] [("class_crosswalk", VRef 3)] demo_heap).2).2)) ∧
  (∀ l m,
     (from_parsed 2 [] [("class_crosswalk", VRef 3)] demo_heap).2 !! l
     = Some (OInstance 2 m) →
     (from_parsed 2 [] []
        (from_parsed 2 [] [("class_crosswalk", VRef 3)] demo_heap).2).2 !! l
     = Some (OInstance 2 m)).
Proof.
  apply (Config_immutable demo_heap 2).
  - exact demo_heap_defined.
  - exists [], [("class_crosswalk", VRef 3)]. left. vm_compute. reflexivity.
  - eapply (rtc_l _ _ (from_parsed 2 [] [("class_crosswalk", VRef 3)] demo_heap).2).
    + eapply (step_setattr 2 _ 13 _ "class_crosswalk" (VRef 8)
                (Raise FrozenInstanceError)).
      * vm_compute. reflexivity.
      * vm_compute. reflexivity.
    + apply rtc_once, step_from_parsed.
Defined.

(** C2.  Any two instances that have been constructed, by the factory or
    by calling the class, see the same two fixed dicts at any later time, as
    long as the objects that existed are what they were (every step of the
    module only adds objects; what an item assignment into a class dict does
    is a separate matter): looking up [ret_type_crosswalk] (or
    [prop_type_crosswalk]) on either gives one and the same object, the
    class's; the first holds exactly five entries, with ["size_t"] mapped to
    ["nuint"], and the second exactly two, with ["byte*"] mapped to
    ["string"]. *)
Theorem fixed_crosswalks_shared h cls i1 h1 hA i2 h2 hB :
  class_defined h cls →
  constructs cls h i1 h1 →
  h1 `prefix_of` hA →
  constructs cls hA i2 h2 →
  h2 `prefix_of` hB →
  ∃ r p,
    getattr hB i1 "ret_type_crosswalk" = Ok r ∧
    getattr hB i2 "ret_type_crosswalk" = Ok r ∧
    getattr hB i1 "prop_type_crosswalk" = Ok p ∧
    getattr hB i2 "prop_type_crosswalk" = Ok p ∧
    deref_dict hB r = Some ret_type_crosswalk ∧
    size ret_type_crosswalk = 5 ∧
    ret_type_crosswalk !! "size_t" = Some (VStr "nuint") ∧
    deref_dict hB p = Some prop_type_crosswalk ∧
    size prop_type_crosswalk = 2 ∧
    prop_type_crosswalk !! "byte*" = Some (VStr "string").
Proof.
  intros (lr & lp & Hc & Hr & Hp) E1 PA E2 PB.
  destruct (constructs_inv _ _ _ _ _ _ Hc E1)
    as (l1 & a1 & a2 & a3 & a4 & -> & P1 & _ & Hl1).
  assert (h `prefix_of` hA) as P0A by (by etrans).
  pose proof (prefix_lookup_Some _ _ _ _ Hc P0A) as HcA.
  destruct (constructs_inv _ _ _ _ _ _ HcA E2)
    as (l2 & b1 & b2 & b3 & b4 & -> & P2 & _ & Hl2).
  assert (hA `prefix_of` hB) as PAB by (by etrans).
  assert (h1 `prefix_of` hB) as P1B by (by etrans).
  assert (h `prefix_of` hB) as P0B by (by etrans).
  pose proof (prefix_lookup_Some _ _ _ _ Hc P0B) as HcB.
  pose proof (prefix_lookup_Some _ _ _ _ Hl1 P1B) as Hl1'.
  pose proof (prefix_lookup_Some _ _ _ _ Hl2 PB) as Hl2'.
  exists (VRef lr), (VRef lp).
  repeat split;
    try (eapply getattr_inherited; [eassumption|reflexivity|eassumption|reflexivity]).
  - simpl. by rewrite (prefix_lookup_Some _ _ _ _ Hr P0B).
  - simpl. by rewrite (prefix_lookup_Some _ _ _ _ Hp P0B).
Qed.

Lemma fixed_crosswalks_shared_witness :
  ∃ r p,
    getattr
      (from_parsed 2 [] [("class_accessors", VRef 4)]
         (call_class 2 [VRef 3; VRef 4; VRef 5; VRef 7] []
            (from_parsed 2 [] [("class_crosswalk", VRef 3)]
               (from_parsed 2 [] [] demo_heap).2).2).2).2
      (VRef 14) "ret_type_crosswalk" = Ok r ∧
    getattr
      (from_parsed 2 [] [("class_accessors", VRef 4)]
         (call_class 2 [VRef 3; VRef 4; VRef 5; VRef 7] []
            (from_parsed 2 [] [("class_crosswalk", VRef 3)]
               (from_parsed 2 [] [] demo_heap).2).2).2).2
      (VRef 19) "ret_type_crosswalk" = Ok r ∧
    getattr
      (from_parsed 2 [] [("class_accessors", VRef 4)]
         (call_class 2 [VRef 3; VRef 4; VRef 5; VRef 7] []
            (from_parsed 2 [] [("class_crosswalk", VRef 3)]
               (from_parsed 2 [] [] demo_heap).2).2).2).2
      (VRef 14) "prop_type_crosswalk" = Ok p ∧
    getattr
      (from_parsed 2 [] [("class_accessors", VRef 4)]
         (call_class 2 [VRef 3; VRef 4; VRef 5; VRef 7] []
            (from_parsed 2 [] [("class_crosswalk", VRef 3)]
               (from_parsed 2 [] [] demo_heap).2).2).2).2
      (VRef 19) "prop_type_crosswalk" = Ok p ∧
    deref_dict
      (from_parsed 2 [] [("class_accessors", VRef 4)]
         (call_class 2 [VRef 3; VRef 4; VRef 5; VRef 7] []
            (from_parsed 2 [] [("class_crosswalk", VRef 3)]
               (from_parsed 2 [] [] demo_heap).2).2).2).2 r
    = Some ret_type_crosswalk ∧
    size ret_type_crosswalk = 5 ∧
    ret_type_crosswalk !! "size_t" = Some (VStr "nuint") ∧
    deref_dict
      (from_parsed 2 [] [("class_accessors", VRef 4)]
         (call_class 2 [VRef 3; VRef 4; VRef 5; VRef 7] []
            (from_parsed 2 [] [("class_crosswalk", VRef 3)]
               (from_parsed 2 [] [] demo_heap).2).2).2).2 p
    = Some prop_type_crosswalk ∧
    size prop_type_crosswalk = 2 ∧
    prop_type_crosswalk !! "byte*" = Some (VStr "string").
Proof.
  apply (fixed_crosswalks_shared demo_heap 2
           (VRef 14) (from_parsed 2 [] [] demo_heap).2
           (from_parsed 2 [] [("class_crosswalk", VRef 3)]
              (from_parsed 2 [] [] demo_heap).2).2
           (VRef 19)
           (call_class 2 [VRef 3; VRef 4; VRef 5; VRef 7] []
              (from_parsed 2 [] [("class_crosswalk", VRef 3)]
                 (from_parsed 2 [] [] demo_heap).2).2).2).
  - exact demo_heap_defined.
  - exists [], []. left. vm_compute. reflexivity.
  - apply monotone_from_parsed.
  - exists [VRef 3; VRef 4; VRef 5; VRef 7], []. right. vm_compute. reflexivity.
  - apply monotone_from_parsed.
Defined.

(** ** The parameters of the generated [__init__] *)

Lemma bind_args_raise s args kwargs e :
  bind_args s args kwargs = Raise e → e = TypeError.
Proof.
  unfold bind_args.
  destruct (bind_positional (sig_positional s) args ∅) as [env0 surplus].
  destruct (bind_keywords _ kwargs env0) as [env1|e'] eqn:E.
  - destruct surplus; [|congruence]. by destruct (forallb _ _); [|congruence].
  - intros [= <-]. by eapply bind_keywords_raise.
Qed.

Lemma bind_positional_size params args env env' surplus :
  NoDup params →
  (∀ p, p ∈ params → env !! p = None) →
  bind_positional params args env = (env', surplus) →
  size env' + length surplus = size env + length args ∧
  dom env' ⊆ dom env ∪ list_to_set params.
Proof.
  revert args env. induction params as [|p params IH]; intros args env Hnd Hfree.
  - simpl. destruct args; intros [= <- <-]; (split; [done|apply union_subseteq_l]).
  - destruct args as [|a args]; simpl.
    + intros [= <- <-]. split; [done|apply union_subseteq_l].
    + apply NoDup_cons in Hnd as [Hp Hnd]. intros E.
      apply IH in E as [Hsz Hdom]; [|done|].
      * rewrite map_size_insert_None in Hsz by (apply Hfree; by left).
        split; [lia|]. intros x Hx%Hdom. revert Hx.
        rewrite dom_insert, !elem_of_union. tauto.
      * intros q Hq. rewrite lookup_insert_ne by (by intros ->).
        apply Hfree. by right.
Qed.

Lemma bind_keywords_dom names kwargs env env' :
  bind_keywords names kwargs env = Ok env' →
  dom env' ⊆ dom env ∪ list_to_set names.
Proof.
  revert env. induction kwargs as [|[k v] kwargs IH]; intros env; simpl.
  - intros [= <-]. apply union_subseteq_l.
  - case_bool_decide as Hin; [|done].
    destruct (env !! k); [done|]. intros E%IH x Hx%E. revert Hx.
    rewrite dom_insert, !elem_of_union, elem_of_singleton, elem_of_list_to_set.
    intros [[->|?]|?]; auto.
Qed.

(** A call of the generated [__init__] binds when it supplies each field
    once, by position or by name, and nothing else. *)
Lemma bind_args_arity fields args kwargs env :
  NoDup fields →
  bind_args (Signature fields []) args kwargs = Ok env →
  length args + length kwargs = length fields ∧
  (∀ k, k ∈ kwargs.*1 → k ∈ fields).
Proof.
  intros Hnd. unfold bind_args, sig_names. cbn [sig_positional sig_kwonly fmap list_fmap].
  rewrite app_nil_r.
  destruct (bind_positional fields args ∅) as [env0 surplus] eqn:E0.
  apply bind_positional_size in E0 as [Hsz0 Hdom0]; [|done|done].
  destruct (bind_keywords fields kwargs env0) as [env1|] eqn:E1; [|done].
  pose proof (bind_keywords_dom _ _ _ _ E1) as Hdom1.
  apply bind_keywords_inv in E1 as (_ & Hk & Hsz1).
  destruct surplus; [|done].
  destruct (forallb _ fields) eqn:Hall; [|done]. intros _.
  split; [|intros k Hin; by apply Hk].
  assert (dom env1 = list_to_set fields) as Hdom.
  { apply set_eq. intros k. split.
    - intros Hin%Hdom1. apply elem_of_union in Hin as [Hin%Hdom0|Hin]; [|done].
      revert Hin. rewrite dom_empty, elem_of_union, elem_of_empty. tauto.
    - rewrite elem_of_list_to_set. intros Hin.
      rewrite forallb_forall in Hall. apply list_elem_of_In, Hall in Hin.
      apply bool_decide_eq_true in Hin. by apply elem_of_dom. }
  assert (size env1 = length fields) as Hsz.
  { rewrite <-size_dom, Hdom. by apply size_list_to_set. }
  rewrite map_size_empty in Hsz0. simpl in Hsz0. lia.
Qed.

(** C9.  The two fixed dicts are not parameters of the constructor.  The
    class the module defines has exactly the four annotated names as its
    fields.  A call of the class that names [ret_type_crosswalk] or
    [prop_type_crosswalk] raises [TypeError]; a call that returns was given
    exactly four arguments, its keywords all among the four field names, and
    on the new instance the two fixed names still lead to the class's own
    attributes. *)
Theorem Config_init_parameters h cls :
  class_defined h cls →
  (∀ h0, ∃ c h1 attrs,
     Config h0 = (Ok c, h1) ∧
     h1 !! c = Some (OClass [ "class_crosswalk"; "class_accessors";
                              "derived_handles"; "wrapper_classes" ] true attrs)) ∧
  (∀ args kwargs name v,
     (name, v) ∈ kwargs →
     name = "ret_type_crosswalk" ∨ name = "prop_type_crosswalk" →
     (call_class cls args kwargs h).1 = Raise TypeError) ∧
  (∀ args kwargs inst h',
     call_class cls args kwargs h = (Ok inst, h') →
     length args + length kwargs = 4 ∧
     kwargs.*1 ⊆ Config_fields ∧
     getattr h' inst "ret_type_crosswalk" = getattr h (VRef cls) "ret_type_crosswalk" ∧
     getattr h' inst "prop_type_crosswalk" = getattr h (VRef cls) "prop_type_crosswalk").
Proof.
  intros (lr & lp & Hc & Hr & Hp).
  pose proof (λ args kwargs inst h',
                call_Config_Ok_inv h cls _ _ args kwargs inst h' Hc) as Hinv.
  split; [|split].
  - intros h0. rewrite Config_spec. do 3 eexists. split; [done|].
    rewrite lookup_app_r by lia.
    by replace (length h0 + 2 - length h0) with 2 by lia.
  - intros args kwargs name v Hin Hname.
    destruct (call_class cls args kwargs h) as [[inst|e] h'] eqn:E; simpl.
    + apply Hinv in E as (env & Hb & _).
      apply bind_args_arity in Hb as [_ Hk]; [|apply NoDup_Config_fields].
      assert (name ∈ Config_fields) as Hf.
      { apply Hk, list_elem_of_fmap. by exists (name, v). }
      apply instance_attrs_dom with (a1 := VNone) (a2 := VNone)
                                    (a3 := VNone) (a4 := VNone) in Hf.
      by destruct Hname as [-> | ->]; destruct Hf.
    + destruct (bind_args (Signature Config_fields []) args kwargs) as [env|e'] eqn:Hb.
      * by rewrite (call_class_ok _ _ _ _ _ _ _ _ Hc Hb) in E.
      * rewrite (call_class_raise _ _ _ _ _ _ _ _ Hc Hb) in E.
        injection E as <- _. f_equal. by eapply bind_args_raise.
  - intros args kwargs inst h' E.
    apply Hinv in E as (env & Hb & -> & ->).
    apply bind_args_arity in Hb as [Hlen Hk]; [|apply NoDup_Config_fields].
    split; [done|]. split; [done|].
    simpl. rewrite lookup_fresh. cbv beta iota.
    rewrite lookup_app_l by (by eapply lookup_lt_Some).
    rewrite Hc. done.
Qed.

Lemma Config_init_parameters_witness :
  (call_class 2 [VRef 3; VRef 4; VRef 5; VRef 7]
              [("ret_type_crosswalk", VRef 8)] demo_heap).1 = Raise TypeError ∧
  (call_class 2 [VRef 3; VRef 4; VRef 5]
              [("prop_type_crosswalk", VRef 8)] demo_heap).1 = Raise TypeError ∧
  getattr (call_class 2 [VRef 3; VRef 4] [("wrapper_classes", VRef 7);
                                         ("derived_handles", VRef 5)] demo_heap).2
          (VRef 10) "ret_type_crosswalk"
  = getattr demo_heap (VRef 2) "ret_type_crosswalk".
Proof.
  destruct (Config_init_parameters demo_heap 2 demo_heap_defined)
    as (_ & Hreject & Haccept).
  split; [|split].
  - apply (Hreject _ _ "ret_type_crosswalk" (VRef 8)); [by left|by left].
  - apply (Hreject _ _ "prop_type_crosswalk" (VRef 8)); [by left|by right].
  - destruct (Haccept [VRef 3; VRef 4]
                [("wrapper_classes", VRef 7); ("derived_handles", VRef 5)]
                (VRef 10)
                (call_class 2 [VRef 3; VRef 4]
                   [("wrapper_classes", VRef 7); ("derived_handles", VRef 5)]
                   demo_heap).2)
      as (_ & _ & Hret & _); [vm_compute; reflexivity|exact Hret].
Defined.

(** ** Worked examples *)

(** [Config.from_parsed(class_crosswalk={"Sol": "Solution"})] in
    [demo_heap]: three empty dicts are made for the other fields and the
    instance is the object after them. *)
Example from_parsed_class_crosswalk_only :
  ∃ h',
    from_parsed 2 [] [("class_crosswalk", VRef 3)] demo_heap = (Ok (VRef 13), h') ∧
    getattr h' (VRef 13) "class_crosswalk" = Ok (VRef 3) ∧
    deref_dict h' (VRef 3) = Some {[ "Sol" := VStr "Solution" ]} ∧
    getattr h' (VRef 13) "class_accessors" = Ok (VRef 10) ∧
    getattr h' (VRef 13) "derived_handles" = Ok (VRef 11) ∧
    getattr h' (VRef 13) "wrapper_classes" = Ok (VRef 12) ∧
    deref_dict h' (VRef 10) = Some ∅ ∧
    deref_dict h' (VRef 11) = Some ∅ ∧
    deref_dict h' (VRef 12) = Some ∅ ∧
    length h' = 14.
Proof. eexists. split; [reflexivity|]. vm_compute. repeat split. Qed.

(** An empty dict passed explicitly is not the dict the field ends up
    with: [{} or {}] is the second, new one. *)
Example from_parsed_empty_dict_replaced :
  ∃ h',
    from_parsed 2 [] [("class_crosswalk", VRef 8)] demo_heap = (Ok (VRef 14), h') ∧
    getattr h' (VRef 14) "class_crosswalk" = Ok (VRef 10).
Proof. eexists. split; [reflexivity|]. vm_compute. reflexivity. Qed.

(** Values that are no mappings are not looked at beyond their truth value:
    [7] and a non-empty list are stored as they are, [0] gives way to [{}]. *)
Example from_parsed_unchecked :
  ∃ h',
    from_parsed 2 []
      [ ("class_crosswalk", VInt 7); ("class_accessors", VInt 0);
        ("wrapper_classes", VRef 9) ] demo_heap = (Ok (VRef 12), h') ∧
    getattr h' (VRef 12) "class_crosswalk" = Ok (VInt 7) ∧
    getattr h' (VRef 12) "class_accessors" = Ok (VRef 10) ∧
    getattr h' (VRef 12) "derived_handles" = Ok (VRef 11) ∧
    getattr h' (VRef 12) "wrapper_classes" = Ok (VRef 9).
Proof. eexists. split; [reflexivity|]. vm_compute. repeat split. Qed.

Example from_parsed_positional :
  from_parsed 2 [VRef 3] [] demo_heap = (Raise TypeError, demo_heap).
Proof. reflexivity. Qed.

Example from_parsed_unknown_keyword :
  from_parsed 2 [] [("ret_type_crosswalk", VRef 3)] demo_heap
  = (Raise TypeError, demo_heap).
Proof. reflexivity. Qed.

Example from_parsed_repeated_keyword :
  from_parsed 2 [] [("class_crosswalk", VRef 3); ("class_crosswalk", VRef 3)]
              demo_heap
  = (Raise TypeError, demo_heap).
Proof. reflexivity. Qed.

(** [cfg.class_crosswalk = {}] on an instance. *)
Example setattr_raises :
  let h' := (from_parsed 2 [] [] demo_heap).2 in
  setattr (VRef 14) "class_crosswalk" (VRef 8) h'
  = Some (Raise FrozenInstanceError, h').
Proof. vm_compute. reflexivity. Qed.

(** [Config.ret_type_crosswalk = {}], on the class object: a statement that
    is given no meaning. *)
Example setattr_class_object :
  setattr (VRef 2) "ret_type_crosswalk" (VRef 8) demo_heap = None.
Proof. reflexivity. Qed.

(** The class called directly, with too few arguments. *)
Example Config_missing_argument :
  (call_class 2 [VRef 3; VRef 4; VRef 5] [] demo_heap).1 = Raise TypeError.
Proof. reflexivity. Qed.

(** ** Which calls [from_parsed] accepts *)




(** ** What [from_parsed] allocates *)

Lemma or_empty_dict_exact h0 h v (b : bool) :
  h0 `prefix_of` h → truth h0 v = Ok b →
  or_empty_dict v h
  = (Ok (if b then v else VRef (length h)),
     h ++ (if b then [] else [ODict ∅])).
Proof.
  intros Hp Hb. pose proof (truth_prefix _ _ _ _ Hp Hb) as Hb'. destruct b.
  - by rewrite (or_empty_dict_truthy _ _ Hb'), app_nil_r.
  - by rewrite (or_empty_dict_falsy _ _ Hb').
Qed.

(** [build] in closed form: one empty dict per falsy operand, in order,
    then the instance. *)
Lemma build_exact cls h fr attrs v1 v2 v3 v4 (b1 b2 b3 b4 : bool) :
  h !! cls = Some (OClass Config_fields fr attrs) →
  truth h v1 = Ok b1 → truth h v2 = Ok b2 →
  truth h v3 = Ok b3 → truth h v4 = Ok b4 →
  let e (b : bool) : heap := if b then [] else [ODict ∅] in
  let a (b : bool) (v : value) (pre : heap) :=
    if b then v else VRef (length (h ++ pre)) in
  build cls v1 v2 v3 v4 h
  = (Ok (VRef (length (h ++ e b1 ++ e b2 ++ e b3 ++ e b4))),
     (h ++ e b1 ++ e b2 ++ e b3 ++ e b4) ++
     [OInstance cls
        (instance_attrs (a b1 v1 []) (a b2 v2 (e b1))
           (a b3 v3 (e b1 ++ e b2)) (a b4 v4 (e b1 ++ e b2 ++ e b3)))]).
Proof.
  intros Hc T1 T2 T3 T4 e a. unfold build.
  rewrite (mbind_ok _ _ _ _ _ (or_empty_dict_exact h h v1 b1 (reflexivity _) T1)).
  fold (e b1).
  assert (h `prefix_of` h ++ e b1) as P1 by (by apply prefix_app_r).
  rewrite (mbind_ok _ _ _ _ _ (or_empty_dict_exact h _ v2 b2 P1 T2)).
  fold (e b2). rewrite <-(app_assoc h).
  assert (h `prefix_of` h ++ e b1 ++ e b2) as P2 by (by apply prefix_app_r).
  rewrite (mbind_ok _ _ _ _ _ (or_empty_dict_exact h _ v3 b3 P2 T3)).
  fold (e b3). rewrite <-!(app_assoc h), <-(app_assoc (e b1)).
  assert (h `prefix_of` h ++ e b1 ++ e b2 ++ e b3) as P3 by (by apply prefix_app_r).
  rewrite (mbind_ok _ _ _ _ _ (or_empty_dict_exact h _ v4 b4 P3 T4)).
  fold (e b4).
  rewrite <-!(app_assoc h), <-!(app_assoc (e b1)), <-!(app_assoc (e b2)).
  rewrite (call_Config _ cls fr attrs)
    by (eapply prefix_lookup_Some; [exact Hc|by apply prefix_app_r]).
  subst a. cbv beta. rewrite app_nil_r. by rewrite <-!app_assoc.
Qed.

Lemma falsy_negb h v (b : bool) : truth h v = Ok b → falsy h v = negb b.
Proof. unfold falsy. intros ->. by destruct b. Qed.

Lemma lookup_middle_len (h pre post : heap) o :
  (h ++ pre ++ o :: post) !! length (h ++ pre) = Some o.
Proof. by rewrite app_assoc, list_lookup_middle. Qed.

Lemma res_neq {A} (x y : res A) a b : x = Ok a → y = Ok b → a ≠ b → x ≠ y.
Proof. congruence. Qed.

Lemma lookup_app_plus (h x : heap) k : (h ++ x) !! (length h + k) = x !! k.
Proof. rewrite lookup_app_r by lia. f_equal. lia. Qed.

(** X2.  The factory allocates one empty dict for each parameter whose argument
    is falsy or missing, and the instance, and nothing else.  Each of these
    dicts is a new object, and no two fields share one. *)
Theorem from_parsed_allocates h cls kwargs :
  class_defined h cls →
  NoDup kwargs.*1 →
  kwargs.*1 ⊆ Config_fields →
  Forall (λ kv, value_ok h kv.2) kwargs →
  ∃ inst h',
    from_parsed cls [] kwargs h = (Ok inst, h') ∧
    length h' =
      length h + length (filter (λ n, falsy h (kwarg kwargs n)) Config_fields) + 1 ∧
    (∀ name, name ∈ Config_fields → falsy h (kwarg kwargs name) →
       ∃ l, getattr h' inst name = Ok (VRef l) ∧
            h !! l = None ∧ h' !! l = Some (ODict ∅)) ∧
    (∀ n1 n2, n1 ∈ Config_fields → n2 ∈ Config_fields → n1 ≠ n2 →
       falsy h (kwarg kwargs n1) → falsy h (kwarg kwargs n2) →
       getattr h' inst n1 ≠ getattr h' inst n2).
Proof.
  intros [attrs Hc]%class_defined_lookup Hnd Hk Hok.
  rewrite Forall_forall in Hok.
  assert (∀ name, value_ok h (kwarg kwargs name)) as Hv.
  { intros name. apply kwarg_ok. intros k v Hin. by apply (Hok _ Hin). }
  destruct (truth_ok _ _ (Hv "class_crosswalk")) as [b1 T1].
  destruct (truth_ok _ _ (Hv "class_accessors")) as [b2 T2].
  destruct (truth_ok _ _ (Hv "derived_handles")) as [b3 T3].
  destruct (truth_ok _ _ (Hv "wrapper_classes")) as [b4 T4].
  pose proof (falsy_negb _ _ _ T1) as F1. pose proof (falsy_negb _ _ _ T2) as F2.
  pose proof (falsy_negb _ _ _ T3) as F3. pose proof (falsy_negb _ _ _ T4) as F4.
  rewrite (from_parsed_build cls kwargs h Hnd Hk).
  rewrite (build_exact cls h true attrs _ _ _ _ b1 b2 b3 b4 Hc T1 T2 T3 T4).
  cbv zeta beta.
  set (e := λ b : bool, if b then [] else [ODict ∅] : heap).
  set (ia := instance_attrs _ _ _ _).
  assert (∀ name v, ia !! name = Some v →
            getattr ((h ++ e b1 ++ e b2 ++ e b3 ++ e b4) ++ [OInstance cls ia])
                    (VRef (length (h ++ e b1 ++ e b2 ++ e b3 ++ e b4))) name
            = Ok v) as Hget.
  { intros name v Hl. eapply getattr_own; [apply lookup_fresh|done]. }
  pose proof (Hget "class_crosswalk" _ eq_refl) as G1.
  pose proof (Hget "class_accessors" _ eq_refl) as G2.
  pose proof (Hget "derived_handles" _ eq_refl) as G3.
  pose proof (Hget "wrapper_classes" _ eq_refl) as G4.
  clearbody ia. clear Hget.
  do 2 eexists. split; [reflexivity|]. split; [|split].
  - unfold Config_fields. rewrite !filter_cons, filter_nil, F1, F2, F3, F4.
    rewrite !length_app.
    destruct b1, b2, b3, b4; simpl; lia.
  - intros name Hname Hf. unfold Config_fields in Hname.
    rewrite !elem_of_cons, elem_of_nil in Hname.
    destruct Hname as [->|[->|[->|[->|[]]]]];
      rewrite ?F1, ?F2, ?F3, ?F4 in Hf;
      destruct b1, b2, b3, b4; try done;
      (eexists; split; [eassumption|]);
      (split; [apply lookup_ge_None; rewrite length_app; lia|]);
      rewrite <-!app_assoc, length_app, lookup_app_plus; reflexivity.
  - intros n1 n2 Hn1 Hn2 Hne Hf1 Hf2. unfold Config_fields in Hn1, Hn2.
    rewrite !elem_of_cons, elem_of_nil in Hn1, Hn2.
    destruct Hn1 as [->|[->|[->|[->|[]]]]];
      destruct Hn2 as [->|[->|[->|[->|[]]]]]; try done;
      rewrite ?F1, ?F2, ?F3, ?F4 in Hf1; rewrite ?F1, ?F2, ?F3, ?F4 in Hf2;
      destruct b1, b2, b3, b4; try done;
      (eapply res_neq; [eassumption|eassumption|]);
      simpl; intros [= E]; revert E; rewrite ?length_app; simpl; lia.
Qed.

Lemma from_parsed_allocates_witness :
  ∃ inst h',
    from_parsed 2 [] [("class_crosswalk", VRef 3); ("class_accessors", VInt 0)]
                demo_heap = (Ok inst, h') ∧
    length h' =
      length demo_heap +
      length (filter
                (λ n, falsy demo_heap
                        (kwarg [("class_crosswalk", VRef 3);
                                ("class_accessors", VInt 0)] n))
                Config_fields) + 1 ∧
    (∀ name, name ∈ Config_fields →
       falsy demo_heap
         (kwarg [("class_crosswalk", VRef 3); ("class_accessors", VInt 0)] name) →
       ∃ l, getattr h' inst name = Ok (VRef l) ∧
            demo_heap !! l = None ∧ h' !! l = Some (ODict ∅)) ∧
    (∀ n1 n2, n1 ∈ Config_fields → n2 ∈ Config_fields → n1 ≠ n2 →
       falsy demo_heap
         (kwarg [("class_crosswalk", VRef 3); ("class_accessors", VInt 0)] n1) →
       falsy demo_heap
         (kwarg [("class_crosswalk", VRef 3); ("class_accessors", VInt 0)] n2) →
       getattr h' inst n1 ≠ getattr h' inst n2).
Proof.
  apply (from_parsed_allocates demo_heap 2).
  - exact demo_heap_defined.
  - apply (bool_decide_unpack _). vm_compute. exact I.
  - apply (bool_decide_unpack _). vm_compute. exact I.
  - repeat constructor; vm_compute; eauto.
Defined.

(** ** The factory and the constructor *)

(** X3.  When all four arguments are given and truthy, the factory does what
    calling the class with them does: same instance, same heap. *)
Theorem from_parsed_as_constructor cls kwargs h :
  NoDup kwargs.*1 →
  kwargs.*1 ⊆ Config_fields →
  (∀ name, name ∈ Config_fields → truth h (kwarg kwargs name) = Ok true) →
  from_parsed cls [] kwargs h
  = call_class cls
      [ kwarg kwargs "class_crosswalk"; kwarg kwargs "class_accessors";
        kwarg kwargs "derived_handles"; kwarg kwargs "wrapper_classes" ] [] h.
Proof.
  intros Hnd Hk Ht. rewrite (from_parsed_build cls kwargs h Hnd Hk).
  unfold build.
  rewrite (mbind_ok _ _ _ _ _ (or_empty_dict_truthy _ _
             (Ht "class_crosswalk" ltac:(by apply (bool_decide_unpack _))))).
  rewrite (mbind_ok _ _ _ _ _ (or_empty_dict_truthy _ _
             (Ht "class_accessors" ltac:(by apply (bool_decide_unpack _))))).
  rewrite (mbind_ok _ _ _ _ _ (or_empty_dict_truthy _ _
             (Ht "derived_handles" ltac:(by apply (bool_decide_unpack _))))).
  by rewrite (mbind_ok _ _ _ _ _ (or_empty_dict_truthy _ _
                (Ht "wrapper_classes" ltac:(by apply (bool_decide_unpack _))))).
Qed.

Lemma from_parsed_as_constructor_witness :
  from_parsed 2 []
    [ ("wrapper_classes", VRef 7); ("class_crosswalk", VRef 3);
      ("derived_handles", VInt 5); ("class_accessors", VRef 4) ] demo_heap
  = call_class 2
      [ kwarg [ ("wrapper_classes", VRef 7); ("class_crosswalk", VRef 3);
                ("derived_handles", VInt 5); ("class_accessors", VRef 4) ]
              "class_crosswalk";
        kwarg [ ("wrapper_classes", VRef 7); ("class_crosswalk", VRef 3);
                ("derived_handles", VInt 5); ("class_accessors", VRef 4) ]
              "class_accessors";
        kwarg [ ("wrapper_classes", VRef 7); ("class_crosswalk", VRef 3);
                ("derived_handles", VInt 5); ("class_accessors", VRef 4) ]
              "derived_handles";
        kwarg [ ("wrapper_classes", VRef 7); ("class_crosswalk", VRef 3);
                ("derived_handles", VInt 5); ("class_accessors", VRef 4) ]
              "wrapper_classes" ] [] demo_heap.
Proof.
  apply from_parsed_as_constructor.
  - apply (bool_decide_unpack _). vm_compute. exact I.
  - apply (bool_decide_unpack _). vm_compute. exact I.
  - intros name Hname. unfold Config_fields in Hname.
    rewrite !elem_of_cons, elem_of_nil in Hname.
    destruct Hname as [->|[->|[->|[->|[]]]]]; vm_compute; reflexivity.
Defined.

(** ** What the constructor stores *)

Lemma bind_positional_keeps params args env env' surplus p :
  p ∉ params →
  bind_positional params args env = (env', surplus) →
  env' !! p = env !! p.
Proof.
  revert args env. induction params as [|q params IH]; intros args env Hp.
  - simpl. by destruct args; intros [= <- <-].
  - destruct args as [|a args]; simpl; [by intros [= <- <-]|].
    apply not_elem_of_cons in Hp as [Hpq Hp]. intros E.
    rewrite (IH _ _ Hp E). by rewrite lookup_insert_ne.
Qed.

Lemma bind_positional_lookup params args env env' surplus i p a :
  NoDup params →
  bind_positional params args env = (env', surplus) →
  params !! i = Some p → args !! i = Some a →
  env' !! p = Some a.
Proof.
  revert args env i. induction params as [|q params IH]; intros args env i Hnd E Hp Ha.
  - by destruct i.
  - destruct args as [|b args]; [by destruct i|]. simpl in E.
    apply NoDup_cons in Hnd as [Hq Hnd]. destruct i as [|i]; simpl in Hp, Ha.
    + injection Hp as ->. injection Ha as ->.
      rewrite (bind_positional_keeps _ _ _ _ _ _ Hq E). apply lookup_insert_eq.
    + by eapply IH.
Qed.

Lemma bind_keywords_keeps names kwargs env env' p a :
  bind_keywords names kwargs env = Ok env' →
  env !! p = Some a → env' !! p = Some a.
Proof.
  revert env. induction kwargs as [|[k v] kwargs IH]; intros env; simpl.
  - by intros [= <-].
  - case_bool_decide; [|done]. destruct (env !! k) eqn:Hk; [done|].
    intros E Hp. apply (IH _ E). rewrite lookup_insert_ne; [done|].
    intros ->. congruence.
Qed.

Lemma bind_keywords_lookup names kwargs env env' k v :
  bind_keywords names kwargs env = Ok env' →
  (k, v) ∈ kwargs → env' !! k = Some v.
Proof.
  revert env. induction kwargs as [|[k' v'] kwargs IH]; intros env; simpl.
  - by intros _ ?%elem_of_nil.
  - case_bool_decide; [|done]. destruct (env !! k'); [done|].
    intros E [[= -> ->]|Hin]%elem_of_cons.
    + apply (bind_keywords_keeps _ _ _ _ _ _ E), lookup_insert_eq.
    + by eapply IH.
Qed.

(** Each parameter of the generated [__init__] is bound to the argument
    given for it, by position or by name. *)
Lemma bind_args_init_lookup fields args kwargs env :
  NoDup fields →
  bind_args (Signature fields []) args kwargs = Ok env →
  (∀ i p a, fields !! i = Some p → args !! i = Some a → env !!! p = a) ∧
  (∀ k v, (k, v) ∈ kwargs → env !!! k = v).
Proof.
  intros Hnd. unfold bind_args, sig_names.
  cbn [sig_positional sig_kwonly fmap list_fmap]. rewrite app_nil_r.
  destruct (bind_positional fields args ∅) as [env0 surplus] eqn:E0.
  destruct (bind_keywords fields kwargs env0) as [env1|] eqn:E1; [|done].
  destruct surplus; [|done]. destruct (forallb _ fields); [|done].
  intros [= <-]. split.
  - intros i p a Hp Ha. apply lookup_total_correct.
    apply (bind_keywords_keeps _ _ _ _ _ _ E1).
    by eapply bind_positional_lookup.
  - intros k v Hin. apply lookup_total_correct.
    by eapply bind_keywords_lookup.
Qed.

(** X4.  Calling the class stores each argument in its field as it is, [None]
    and other falsy values included: the constructor substitutes nothing. *)
Theorem Config_stores_arguments h cls args kwargs inst h' :
  class_defined h cls →
  call_class cls args kwargs h = (Ok inst, h') →
  (∀ i name a,
     Config_fields !! i = Some name → args !! i = Some a →
     getattr h' inst name = Ok a) ∧
  (∀ name v, (name, v) ∈ kwargs → getattr h' inst name = Ok v).
Proof.
  intros [attrs Hc]%class_defined_lookup E.
  apply (call_Config_Ok_inv _ _ _ _ _ _ _ _ Hc) in E as (env & Hb & -> & ->).
  pose proof (bind_args_arity _ _ _ _ NoDup_Config_fields Hb) as [_ Hk].
  apply bind_args_init_lookup in Hb as [Hpos Hkw]; [|apply NoDup_Config_fields].
  destruct (instance_attrs_lookup (env !!! "class_crosswalk")
              (env !!! "class_accessors") (env !!! "derived_handles")
              (env !!! "wrapper_classes")) as (L1 & L2 & L3 & L4).
  assert (∀ name, name ∈ Config_fields →
            getattr (h ++ [OInstance cls
                             (instance_attrs (env !!! "class_crosswalk")
                                (env !!! "class_accessors")
                                (env !!! "derived_handles")
                                (env !!! "wrapper_classes"))])
                    (VRef (length h)) name = Ok (env !!! name)) as Hget.
  { intros name Hname. unfold Config_fields in Hname.
    rewrite !elem_of_cons, elem_of_nil in Hname.
    destruct Hname as [->|[->|[->|[->|[]]]]];
      (eapply getattr_own; [apply lookup_fresh|eassumption]). }
  split.
  - intros i name a Hname Ha. rewrite Hget by (by eapply list_elem_of_lookup_2).
    f_equal. by eapply Hpos.
  - intros name v Hin. rewrite Hget.
    + f_equal. by apply Hkw.
    + apply Hk, list_elem_of_fmap. by exists (name, v).
Qed.

Lemma Config_stores_arguments_witness :
  (∀ i name a,
     Config_fields !! i = Some name → [VNone; VRef 8] !! i = Some a →
     getattr
       (call_class 2 [VNone; VRef 8]
          [("wrapper_classes", VInt 0); ("derived_handles", VRef 5)] demo_heap).2
       (VRef 10) name = Ok a) ∧
  (∀ name v,
     (name, v) ∈ [("wrapper_classes", VInt 0); ("derived_handles", VRef 5)] →
     getattr
       (call_class 2 [VNone; VRef 8]
          [("wrapper_classes", VInt 0); ("derived_handles", VRef 5)] demo_heap).2
       (VRef 10) name = Ok v).
Proof.
  apply (Config_stores_arguments demo_heap 2).
  - exact demo_heap_defined.
  - vm_compute. reflexivity.
Defined.

(** ** Rebuilding an instance from its fields *)

Lemma all_eq_refl4 n h a1 a2 a3 a4 :
  all_eq (py_eq (S n) h) (zip [a1; a2; a3; a4] [a1; a2; a3; a4]) = Ok true.
Proof. cbn [zip zip_with all_eq]. by rewrite !py_eq_refl. Qed.

(** X5.  Passing the four fields of an instance back to the class gives another
    instance, a different object that compares equal to the first, in
    both directions. *)
Theorem Config_rebuild n h cls i1 h1 :
  class_defined h cls →
  constructs cls h i1 h1 →
  ∃ a1 a2 a3 a4 i2 h2,
    getattr h1 i1 "class_crosswalk" = Ok a1 ∧
    getattr h1 i1 "class_accessors" = Ok a2 ∧
    getattr h1 i1 "derived_handles" = Ok a3 ∧
    getattr h1 i1 "wrapper_classes" = Ok a4 ∧
    call_class cls [a1; a2; a3; a4] [] h1 = (Ok i2, h2) ∧
    i1 ≠ i2 ∧
    py_eq (S (S n)) h2 i1 i2 = Ok true ∧
    py_eq (S (S n)) h2 i2 i1 = Ok true.
Proof.
  intros [attrs Hc]%class_defined_lookup E.
  destruct (constructs_inv _ _ _ _ _ _ Hc E)
    as (l1 & a1 & a2 & a3 & a4 & -> & P & _ & Hl1).
  pose proof (prefix_lookup_Some _ _ _ _ Hc P) as Hc1.
  destruct (instance_attrs_lookup a1 a2 a3 a4) as (L1 & L2 & L3 & L4).
  set (o := OInstance cls (instance_attrs a1 a2 a3 a4)) in *.
  assert (h1 `prefix_of` h1 ++ [o]) as P2 by (by apply prefix_app_r).
  pose proof (lookup_lt_Some _ _ _ Hl1) as Hlt.
  exists a1, a2, a3, a4, (VRef (length h1)), (h1 ++ [o]).
  split; [by eapply getattr_own|]. split; [by eapply getattr_own|].
  split; [by eapply getattr_own|]. split; [by eapply getattr_own|].
  split; [by apply (call_Config _ _ true attrs)|].
  split; [intros [= ->]; lia|].
  split.
  - erewrite (py_eq_instances (S n) _ l1 (length h1) cls _ _ Config_fields true attrs
               [a1; a2; a3; a4] [a1; a2; a3; a4]).
    + apply all_eq_refl4.
    + lia.
    + by eapply prefix_lookup_Some.
    + apply lookup_fresh.
    + by eapply prefix_lookup_Some.
    + eapply field_tuple_Config. by eapply prefix_lookup_Some.
    + eapply field_tuple_Config, lookup_fresh.
  - erewrite (py_eq_instances (S n) _ (length h1) l1 cls _ _ Config_fields true attrs
               [a1; a2; a3; a4] [a1; a2; a3; a4]).
    + apply all_eq_refl4.
    + lia.
    + apply lookup_fresh.
    + by eapply prefix_lookup_Some.
    + by eapply prefix_lookup_Some.
    + eapply field_tuple_Config, lookup_fresh.
    + eapply field_tuple_Config. by eapply prefix_lookup_Some.
Qed.

Lemma Config_rebuild_witness :
  ∃ a1 a2 a3 a4 i2 h2,
    getattr (call_class 2 [VNone; VRef 8; VRef 5; VInt 0] [] demo_heap).2
            (VRef 10) "class_crosswalk" = Ok a1 ∧
    getattr (call_class 2 [VNone; VRef 8; VRef 5; VInt 0] [] demo_heap).2
            (VRef 10) "class_accessors" = Ok a2 ∧
    getattr (call_class 2 [VNone; VRef 8; VRef 5; VInt 0] [] demo_heap).2
            (VRef 10) "derived_handles" = Ok a3 ∧
    getattr (call_class 2 [VNone; VRef 8; VRef 5; VInt 0] [] demo_heap).2
            (VRef 10) "wrapper_classes" = Ok a4 ∧
    call_class 2 [a1; a2; a3; a4] []
      (call_class 2 [VNone; VRef 8; VRef 5; VInt 0] [] demo_heap).2 = (Ok i2, h2) ∧
    VRef 10 ≠ i2 ∧
    py_eq 2 h2 (VRef 10) i2 = Ok true ∧
    py_eq 2 h2 i2 (VRef 10) = Ok true.
Proof.
  apply (Config_rebuild 0 demo_heap 2).
  - exact demo_heap_defined.
  - exists [VNone; VRef 8; VRef 5; VInt 0], []. right. vm_compute. reflexivity.
Defined.

(** X6.  An instance that the factory made can also be rebuilt through the
    factory: passing its four fields back by keyword returns a different
    object that compares equal to it.  (A field that is an empty dict is
    replaced by a new empty dict, the others are passed on.) *)
Theorem from_parsed_rebuild n h cls kwargs :
  class_defined h cls →
  NoDup kwargs.*1 →
  kwargs.*1 ⊆ Config_fields →
  Forall (λ kv, value_ok h kv.2) kwargs →
  ∃ i1 h1 a1 a2 a3 a4 i2 h2,
    from_parsed cls [] kwargs h = (Ok i1, h1) ∧
    getattr h1 i1 "class_crosswalk" = Ok a1 ∧
    getattr h1 i1 "class_accessors" = Ok a2 ∧
    getattr h1 i1 "derived_handles" = Ok a3 ∧
    getattr h1 i1 "wrapper_classes" = Ok a4 ∧
    from_parsed cls []
      [ ("class_crosswalk", a1); ("class_accessors", a2);
        ("derived_handles", a3); ("wrapper_classes", a4) ] h1 = (Ok i2, h2) ∧
    i1 ≠ i2 ∧
    py_eq (S (S n)) h2 i1 i2 = Ok true.
Proof.
  intros [attrs Hc]%class_defined_lookup Hnd Hk Hok.
  rewrite Forall_forall in Hok.
  destruct (from_parsed_spec h cls true attrs kwargs)
    as (a1 & a2 & a3 & a4 & h1' & F1 & P1 & A1 & A2 & A3 & A4);
    [done|done|done|by intros k v ?%Hok|].
  set (o1 := OInstance cls (instance_attrs a1 a2 a3 a4)) in *.
  set (kw2 := [ ("class_crosswalk", a1); ("class_accessors", a2);
                ("derived_handles", a3); ("wrapper_classes", a4) ]).
  assert (h1' `prefix_of` h1' ++ [o1]) as Q1 by (by apply prefix_app_r).
  assert (h `prefix_of` h1' ++ [o1]) as Q1' by (by etrans).
  assert (∀ (name : string) v a, chosen h h1' v a → value_ok h v →
            value_ok (h1' ++ [o1]) a ∧
            ∀ b h2', chosen (h1' ++ [o1]) h2' a b →
                     h1' ++ [o1] `prefix_of` h2' →
                     ∀ h2, h2' `prefix_of` h2 → py_eq (S n) h2 a b = Ok true)
    as Hfield.
  { intros _ v a [[Tv ->]|(Tv & l & -> & _ & Hl)] Hv.
    - split; [by eapply value_ok_prefix|].
      intros b h2' [[_ ->]|[Tb _]] _ h2 _; [apply py_eq_refl|].
      rewrite (truth_prefix _ _ _ _ Q1' Tv) in Tb. done.
    - pose proof (prefix_lookup_Some _ _ _ _ Hl Q1) as Hl'.
      split; [apply mapping_value_ok; simpl; by rewrite Hl'|].
      intros b h2' [[Tb _]|(_ & l2 & -> & _ & Hl2)] P2 h2 P3.
      + unfold truth in Tb. simpl in Tb.
        rewrite (mbind_ok _ _ _ _ _ (read_ok _ _ _ Hl')) in Tb. done.
      + apply py_eq_empty_dicts.
        * eapply prefix_lookup_Some; [exact Hl'|by etrans].
        * by eapply prefix_lookup_Some. }
  assert (∀ name, value_ok h (kwarg kwargs name)) as Hv.
  { intros name. apply kwarg_ok. intros k v Hin. by apply (Hok _ Hin). }
  destruct (Hfield "class_crosswalk" _ _ A1 (Hv _)) as [V1 E1].
  destruct (Hfield "class_accessors" _ _ A2 (Hv _)) as [V2 E2].
  destruct (Hfield "derived_handles" _ _ A3 (Hv _)) as [V3 E3].
  destruct (Hfield "wrapper_classes" _ _ A4 (Hv _)) as [V4 E4].
  destruct (from_parsed_spec (h1' ++ [o1]) cls true attrs kw2)
    as (b1 & b2 & b3 & b4 & h2' & F2 & P2 & B1 & B2 & B3 & B4).
  { by eapply prefix_lookup_Some. }
  { by apply (bool_decide_unpack _). }
  { change (kw2.*1 ⊆ Config_fields). by apply (bool_decide_unpack _). }
  { intros k v. subst kw2. rewrite !elem_of_cons, elem_of_nil.
    intros [[= _ ->]|[[= _ ->]|[[= _ ->]|[[= _ ->]|[]]]]]; done. }
  change (kwarg kw2 "class_crosswalk") with a1 in B1.
  change (kwarg kw2 "class_accessors") with a2 in B2.
  change (kwarg kw2 "derived_handles") with a3 in B3.
  change (kwarg kw2 "wrapper_classes") with a4 in B4.
  set (o2 := OInstance cls (instance_attrs b1 b2 b3 b4)) in *.
  assert (h2' `prefix_of` h2' ++ [o2]) as Q2 by (by apply prefix_app_r).
  assert (h1' ++ [o1] `prefix_of` h2' ++ [o2]) as Q3 by (by etrans).
  destruct (instance_attrs_lookup a1 a2 a3 a4) as (L1 & L2 & L3 & L4).
  assert (length h1' < length h2') as Hlt.
  { apply prefix_length in P2. rewrite length_app in P2. simpl in P2. lia. }
  exists (VRef (length h1')), (h1' ++ [o1]), a1, a2, a3, a4,
         (VRef (length h2')), (h2' ++ [o2]).
  split; [done|].
  split; [eapply getattr_own; [apply lookup_fresh|done]|].
  split; [eapply getattr_own; [apply lookup_fresh|done]|].
  split; [eapply getattr_own; [apply lookup_fresh|done]|].
  split; [eapply getattr_own; [apply lookup_fresh|done]|].
  split; [done|]. split; [intros [= ?]; lia|].
  erewrite (py_eq_instances (S n) _ (length h1') (length h2') cls _ _
             Config_fields true attrs [a1; a2; a3; a4] [b1; b2; b3; b4]).
  - cbn [zip zip_with all_eq].
    rewrite (E1 _ _ B1 P2 _ Q2), (E2 _ _ B2 P2 _ Q2).
    by rewrite (E3 _ _ B3 P2 _ Q2), (E4 _ _ B4 P2 _ Q2).
  - lia.
  - eapply prefix_lookup_Some; [apply lookup_fresh|exact Q3].
  - apply lookup_fresh.
  - eapply prefix_lookup_Some; [exact Hc|by etrans].
  - eapply field_tuple_Config, prefix_lookup_Some; [apply lookup_fresh|exact Q3].
  - eapply field_tuple_Config, lookup_fresh.
Qed.

Lemma from_parsed_rebuild_witness :
  ∃ i1 h1 a1 a2 a3 a4 i2 h2,
    from_parsed 2 [] [("class_crosswalk", VRef 3); ("class_accessors", VInt 0)]
                demo_heap = (Ok i1, h1) ∧
    getattr h1 i1 "class_crosswalk" = Ok a1 ∧
    getattr h1 i1 "class_accessors" = Ok a2 ∧
    getattr h1 i1 "derived_handles" = Ok a3 ∧
    getattr h1 i1 "wrapper_classes" = Ok a4 ∧
    from_parsed 2 []
      [ ("class_crosswalk", a1); ("class_accessors", a2);
        ("derived_handles", a3); ("wrapper_classes", a4) ] h1 = (Ok i2, h2) ∧
    i1 ≠ i2 ∧
    py_eq 2 h2 i1 i2 = Ok true.
Proof.
  apply (from_parsed_rebuild 0 demo_heap 2).
  - exact demo_heap_defined.
  - apply (bool_decide_unpack _). vm_compute. exact I.
  - apply (bool_decide_unpack _). vm_compute. exact I.
  - repeat constructor; vm_compute; eauto.
Defined.

(** ** Hashing an instance *)

(** X7.  An instance made from mappings cannot be hashed, although the class is
    frozen: its generated [__hash__] hashes the field tuple, whose first
    item is a dict, and that raises [TypeError]. *)
Theorem Config_unhashable n h cls kwargs :
  class_defined h cls →
  NoDup kwargs.*1 →
  kwargs.*1 ⊆ Config_fields →
  Forall (λ kv, is_Some (deref_dict h kv.2)) kwargs →
  ∃ inst h',
    from_parsed cls [] kwargs h = (Ok inst, h') ∧
    py_hash (S n) h' inst = Raise TypeError.
Proof.
  intros [attrs Hc]%class_defined_lookup Hnd Hk Hmap.
  destruct (from_parsed_spec h cls true attrs kwargs)
    as (a1 & a2 & a3 & a4 & h1 & F & P & A1 & _); [done|done|done| |].
  { intros k v Hin. rewrite Forall_forall in Hmap.
    by apply mapping_value_ok, (Hmap _ Hin). }
  set (o := OInstance cls (instance_attrs a1 a2 a3 a4)) in *.
  assert (h1 `prefix_of` h1 ++ [o]) as Q by (by apply prefix_app_r).
  exists (VRef (length h1)), (h1 ++ [o]). split; [done|].
  assert (∃ d, deref_dict (h1 ++ [o]) a1 = Some d) as [d Hd].
  { assert (h `prefix_of` h1 ++ [o]) as Q' by (by etrans).
    pose proof (chosen_prefix _ _ _ _ _ A1 Q) as A1'.
    destruct (chosen_deref _ _ _ _ A1' Q') as (Hfalse & _ & Hsame).
    unfold kwarg in *.
    destruct (list_to_map kwargs !! "class_crosswalk") as [v|] eqn:E; simpl in *.
    - apply elem_of_list_to_map_2 in E. rewrite Forall_forall in Hmap.
      destruct (Hmap _ E) as [d Hd]. exists d. by apply Hsame.
    - exists ∅. by apply Hfalse. }
  cbn [py_hash]. rewrite lookup_fresh. subst o. cbv beta iota.
  rewrite (prefix_lookup_Some _ _ _ _ Hc ltac:(by etrans)).
  rewrite (field_tuple_Config _ _ cls a1 a2 a3 a4) by apply lookup_fresh.
  cbn [mbind res_bind hash_all].
  destruct a1 as [| | | |l]; try done. simpl in Hd.
  destruct n as [|n]; simpl;
    by destruct ((h1 ++ [OInstance cls (instance_attrs (VRef l) a2 a3 a4)]) !! l)
      as [[]|].
Qed.

Lemma Config_unhashable_witness :
  ∃ inst h',
    from_parsed 2 [] [("wrapper_classes", VRef 7)] demo_heap = (Ok inst, h') ∧
    py_hash 1 h' inst = Raise TypeError.
Proof.
  apply (Config_unhashable 0 demo_heap 2).
  - exact demo_heap_defined.
  - apply (bool_decide_unpack _). vm_compute. exact I.
  - apply (bool_decide_unpack _). vm_compute. exact I.
  - repeat constructor; vm_compute; eauto.
Defined.

(** ** Frozen, but not deeply *)

Lemma dict_setitem_ok h l d k v :
  h !! l = Some (ODict d) →
  dict_setitem (VRef l) k v h = (Ok (), <[l := ODict (<[k:=v]> d)]> h).
Proof.
  intros Hl. unfold dict_setitem.
  by rewrite (mbind_ok _ _ _ _ _ (read_ok _ _ _ Hl)).
Qed.

(** Overwriting a dict does not change what attribute lookups return. *)
Lemma getattr_store_dict h l d d' o name a :
  h !! l = Some (ODict d) →
  getattr h o name = Ok a →
  getattr (<[l := ODict d']> h) o name = Ok a.
Proof.
  intros Hl. destruct o as [| | | |li]; try done. simpl.
  destruct (decide (li = l)) as [->|Hne]; [by rewrite Hl|].
  rewrite list_lookup_insert_ne by done.
  destruct (h !! li) as [[| |c attrs| |]|]; try done.
  destruct (attrs !! name); [done|].
  destruct (decide (c = l)) as [->|Hc]; [by rewrite Hl|].
  by rewrite list_lookup_insert_ne.
Qed.

(** X8.  The factory does not copy a mapping it is given: the field is the
    caller's dict itself, so an entry the caller stores in that dict after
    the instance was made shows through the field. *)
Theorem from_parsed_aliases_argument h cls kwargs name l d k v :
  class_defined h cls →
  NoDup kwargs.*1 →
  kwargs.*1 ⊆ Config_fields →
  Forall (λ kv, value_ok h kv.2) kwargs →
  (name, VRef l) ∈ kwargs →
  h !! l = Some (ODict d) →
  d ≠ ∅ →
  ∃ inst h' h'',
    from_parsed cls [] kwargs h = (Ok inst, h') ∧
    dict_setitem (VRef l) k v h' = (Ok (), h'') ∧
    getattr h'' inst name = Ok (VRef l) ∧
    deref_dict h'' (VRef l) = Some (<[k:=v]> d).
Proof.
  intros [attrs Hc]%class_defined_lookup Hnd Hk Hok Hin Hl Hd.
  destruct (from_parsed_fields h cls true attrs kwargs Hc Hnd Hk Hok)
    as (inst & h' & E & P & Hf & _).
  assert (name ∈ Config_fields) as Hname.
  { apply Hk, list_elem_of_fmap. by exists (name, VRef l). }
  destruct (Hf name Hname) as (a & Ha & Hch).
  rewrite (kwarg_supplied _ _ _ Hnd Hin) in Hch.
  destruct (chosen_deref _ _ _ _ Hch P) as (_ & Htrue & _).
  rewrite Htrue in Ha.
  2:{ unfold truth. simpl. rewrite (mbind_ok _ _ _ _ _ (read_ok _ _ _ Hl)).
      simpl. by rewrite bool_decide_false. }
  pose proof (prefix_lookup_Some _ _ _ _ Hl P) as Hl'.
  exists inst, h', (<[l := ODict (<[k:=v]> d)]> h').
  split; [done|]. split; [by apply dict_setitem_ok|].
  split; [by eapply getattr_store_dict|].
  simpl. by rewrite list_lookup_insert_eq by (by eapply lookup_lt_Some).
Qed.

Lemma from_parsed_aliases_argument_witness :
  ∃ inst h' h'',
    from_parsed 2 [] [("class_crosswalk", VRef 3)] demo_heap = (Ok inst, h') ∧
    dict_setitem (VRef 3) "Kin" (VStr "Kinetics") h' = (Ok (), h'') ∧
    getattr h'' inst "class_crosswalk" = Ok (VRef 3) ∧
    deref_dict h'' (VRef 3)
    = Some (<["Kin" := VStr "Kinetics"]> {[ "Sol" := VStr "Solution" ]}).
Proof.
  apply (from_parsed_aliases_argument demo_heap 2).
  - exact demo_heap_defined.
  - apply (bool_decide_unpack _). vm_compute. exact I.
  - apply (bool_decide_unpack _). vm_compute. exact I.
  - repeat constructor; vm_compute; eauto.
  - by left.
  - reflexivity.
  - apply map_non_empty_singleton.
Defined.

(** X9.  The two fixed dicts belong to the class and are ordinary dicts.  An
    entry stored through one instance is seen through every other instance,
    and by every instance constructed later: freezing the instances does
    not protect them. *)
Theorem class_dicts_shared_mutable h cls i1 h1 i2 h2 name d k v :
  class_defined h cls →
  constructs cls h i1 h1 →
  constructs cls h1 i2 h2 →
  (name = "ret_type_crosswalk" ∧ d = ret_type_crosswalk) ∨
  (name = "prop_type_crosswalk" ∧ d = prop_type_crosswalk) →
  ∃ r h3,
    getattr h2 i1 name = Ok r ∧
    dict_setitem r k v h2 = (Ok (), h3) ∧
    getattr h3 i2 name = Ok r ∧
    deref_dict h3 r = Some (<[k:=v]> d) ∧
    ∀ i3 h4, constructs cls h3 i3 h4 →
      getattr h4 i3 name = Ok r ∧ deref_dict h4 r = Some (<[k:=v]> d).
Proof.
  intros (lr & lp & Hc & Hr & Hp) E1 E2 Hname.
  destruct (constructs_inv _ _ _ _ _ _ Hc E1)
    as (l1 & a1 & a2 & a3 & a4 & -> & P1 & _ & Hl1).
  pose proof (prefix_lookup_Some _ _ _ _ Hc P1) as Hc1.
  destruct (constructs_inv _ _ _ _ _ _ Hc1 E2)
    as (l2 & b1 & b2 & b3 & b4 & -> & P2 & _ & Hl2).
  pose proof (prefix_lookup_Some _ _ _ _ Hc1 P2) as Hc2.
  pose proof (prefix_lookup_Some _ _ _ _ Hl1 P2) as Hl1'.
  assert (h `prefix_of` h2) as P by (by etrans).
  assert (∃ l, h2 !! l = Some (ODict d) ∧
               Config_attrs lr lp !! name = Some (VRef l) ∧
               name ∉ Config_fields) as (l & Hl & Hattr & Hnf).
  { destruct Hname as [[-> ->]|[-> ->]]; [exists lr|exists lp];
      (split; [by eapply prefix_lookup_Some|]);
      (split; [reflexivity|by apply (bool_decide_unpack _)]). }
  assert (∀ x1 x2 x3 x4, instance_attrs x1 x2 x3 x4 !! name = None) as Hown.
  { intros x1 x2 x3 x4.
    destruct (instance_attrs x1 x2 x3 x4 !! name) eqn:E; [|done].
    destruct Hnf. apply (instance_attrs_dom x1 x2 x3 x4). by rewrite E. }
  set (h3 := <[l := ODict (<[k:=v]> d)]> h2).
  assert (h3 !! cls = Some (OClass Config_fields true (Config_attrs lr lp))) as Hc3.
  { subst h3. rewrite list_lookup_insert_ne; [done|]. intros ->. congruence. }
  assert (h3 !! l = Some (ODict (<[k:=v]> d))) as Hl3.
  { subst h3. by rewrite list_lookup_insert_eq by (by eapply lookup_lt_Some). }
  exists (VRef l), h3.
  split; [by eapply getattr_inherited|].
  split; [by apply dict_setitem_ok|].
  split; [eapply getattr_store_dict; [done|by eapply getattr_inherited]|].
  split; [simpl; by rewrite Hl3|].
  intros i3 h4 E3.
  destruct (constructs_inv _ _ _ _ _ _ Hc3 E3)
    as (l3 & c1 & c2 & c3 & c4 & -> & P3 & _ & Hl3').
  split.
  - eapply getattr_inherited; [done|done| |done].
    by eapply prefix_lookup_Some.
  - simpl. by rewrite (prefix_lookup_Some _ _ _ _ Hl3 P3).
Qed.

Lemma class_dicts_shared_mutable_witness :
  ∃ r h3,
    getattr (from_parsed 2 [] [] (from_parsed 2 [] [] demo_heap).2).2
            (VRef 14) "ret_type_crosswalk" = Ok r ∧
    dict_setitem r "size_t" (VStr "ulong")
      (from_parsed 2 [] [] (from_parsed 2 [] [] demo_heap).2).2 = (Ok (), h3) ∧
    getattr h3 (VRef 19) "ret_type_crosswalk" = Ok r ∧
    deref_dict h3 r = Some (<["size_t" := VStr "ulong"]> ret_type_crosswalk) ∧
    ∀ i3 h4, constructs 2 h3 i3 h4 →
      getattr h4 i3 "ret_type_crosswalk" = Ok r ∧
      deref_dict h4 r = Some (<["size_t" := VStr "ulong"]> ret_type_crosswalk).
Proof.
  apply (class_dicts_shared_mutable demo_heap 2
           (VRef 14) (from_parsed 2 [] [] demo_heap).2 (VRef 19)).
  - exact demo_heap_defined.
  - exists [], []. left. vm_compute. reflexivity.
  - exists [], []. left. vm_compute. reflexivity.
  - by left.
Defined.

(** ** No field is left empty-handed *)

(** X11.  Whatever the factory is given, no field of the instance it returns is
    [None], nor any other falsy value but a dict: each field is either
    truthy, and then it is the argument, or an empty dict. *)
Theorem from_parsed_fields_usable h cls kwargs :
  class_defined h cls →
  NoDup kwargs.*1 →
  kwargs.*1 ⊆ Config_fields →
  Forall (λ kv, value_ok h kv.2) kwargs →
  ∃ inst h',
    from_parsed cls [] kwargs h = (Ok inst, h') ∧
    ∀ name, name ∈ Config_fields →
      ∃ a, getattr h' inst name = Ok a ∧
           a ≠ VNone ∧
           ((truth h' a = Ok true ∧ a = kwarg kwargs name) ∨
            deref_dict h' a = Some ∅).
Proof.
  intros [attrs Hc]%class_defined_lookup Hnd Hk Hok.
  destruct (from_parsed_fields h cls true attrs kwargs Hc Hnd Hk Hok)
    as (inst & h' & E & P & Hf & _).
  exists inst, h'. split; [done|].
  intros name Hname. destruct (Hf name Hname) as (a & Ha & Hch).
  exists a. split; [done|].
  destruct Hch as [[Ht ->]|(_ & l & -> & _ & Hl)].
  - split; [by intros Hn; rewrite Hn in Ht|].
    left. split; [by eapply truth_prefix|done].
  - split; [done|]. right. simpl. by rewrite Hl.
Qed.

Lemma from_parsed_fields_usable_witness :
  ∃ inst h',
    from_parsed 2 []
      [ ("class_crosswalk", VNone); ("class_accessors", VBool false);
        ("derived_handles", VRef 5) ] demo_heap = (Ok inst, h') ∧
    ∀ name, name ∈ Config_fields →
      ∃ a, getattr h' inst name = Ok a ∧
           a ≠ VNone ∧
           ((truth h' a = Ok true ∧
             a = kwarg [ ("class_crosswalk", VNone); ("class_accessors", VBool false);
                         ("derived_handles", VRef 5) ] name) ∨
            deref_dict h' a = Some ∅).
Proof.
  apply (from_parsed_fields_usable demo_heap 2).
  - exact demo_heap_defined.
  - apply (bool_decide_unpack _). vm_compute. exact I.
  - apply (bool_decide_unpack _). vm_compute. exact I.
  - repeat constructor; vm_compute; eauto.
Defined.

(** ** An argument whose truth test raises *)






